(** * Spending report generator: vendor normalisation, categorisation,
    statement loading and report building.

    Shallow embedding of [generate_reports_cli.py] (the root-level CLI
    script) and of the rule-based classifier of
    [report/generate_reports_email.py].  Text is modelled as ASCII
    [string]s; Python exceptions as the [Raise] branch of [result]. *)

From Stdlib Require Import String Ascii List ZArith QArith Bool Lia.
From Stdlib Require Import Sorting.Permutation Sorting.Sorted.
From Stdlib Require Import QArith.Qcanon QArith.Qcabs Numbers.DecimalString.
Import ListNotations.

Close Scope Qc_scope.
Open Scope string_scope.


(* ================================================================== *)
(** ** Python values and exceptions *)

(** The exceptions the modelled code can raise. *)
Inductive py_error :=
| IndexError
| KeyError (key : string)
| ValueError (msg : string)
| AttributeError (msg : string)
| FileNotFoundError
| ParserError (msg : string).

(** A computation that returns a value or raises. *)
Inductive result (A : Type) :=
| Ok (a : A)
| Raise (e : py_error).
Arguments Ok {A} a.
Arguments Raise {A} e.

Definition bind {A B} (m : result A) (k : A -> result B) : result B :=
  match m with
  | Ok a => k a
  | Raise e => Raise e
  end.

Notation "x <- m ;; k" := (bind m (fun x => k))
  (at level 61, m at next level, right associativity).

(** [for x in xs: ys.append(f(x))], stopping at the first exception. *)
Fixpoint map_result {A B} (f : A -> result B) (xs : list A) : result (list B) :=
  match xs with
  | [] => Ok []
  | x :: xs' => y <- f x ;; ys <- map_result f xs' ;; Ok (y :: ys)
  end.

(** A cell of a pandas frame read from CSV: a string, a number or NaN. *)
Inductive cell :=
| CStr (s : string)
| CNum (q : Q)
| CNaN.

(* ================================================================== *)
(** ** String helpers ([str.upper], [str.lower], [str.strip],
    [str.split], [in]) *)

Definition upper_char (c : ascii) : ascii :=
  let n := nat_of_ascii c in
  if (97 <=? n)%nat && (n <=? 122)%nat then ascii_of_nat (n - 32) else c.

Definition lower_char (c : ascii) : ascii :=
  let n := nat_of_ascii c in
  if (65 <=? n)%nat && (n <=? 90)%nat then ascii_of_nat (n + 32) else c.

Fixpoint upper (s : string) : string :=
  match s with
  | EmptyString => EmptyString
  | String c s' => String (upper_char c) (upper s')
  end.

Fixpoint lower (s : string) : string :=
  match s with
  | EmptyString => EmptyString
  | String c s' => String (lower_char c) (lower s')
  end.

(** [str.isspace] on ASCII: tab, LF, VT, FF, CR, the separators 28-31
    and space. *)
Definition is_space (c : ascii) : bool :=
  let n := nat_of_ascii c in
  ((9 <=? n)%nat && (n <=? 13)%nat) || ((28 <=? n)%nat && (n <=? 32)%nat).

Definition is_digit (c : ascii) : bool :=
  let n := nat_of_ascii c in (48 <=? n)%nat && (n <=? 57)%nat.

Fixpoint lstrip (s : string) : string :=
  match s with
  | EmptyString => EmptyString
  | String c s' => if is_space c then lstrip s' else s
  end.

Fixpoint rev_string (s : string) (acc : string) : string :=
  match s with
  | EmptyString => acc
  | String c s' => rev_string s' (String c acc)
  end.

Definition strip (s : string) : string :=
  rev_string (lstrip (rev_string (lstrip s) EmptyString)) EmptyString.

(** [str.split()] with no separator: maximal runs of non-space
    characters, in order. [cur] is the token being read, reversed. *)
Fixpoint split_ws_aux (s : string) (cur : string) : list string :=
  match s with
  | EmptyString =>
      match cur with EmptyString => [] | _ => [rev_string cur EmptyString] end
  | String c s' =>
      if is_space c then
        match cur with
        | EmptyString => split_ws_aux s' EmptyString
        | _ => rev_string cur EmptyString :: split_ws_aux s' EmptyString
        end
      else split_ws_aux s' (String c cur)
  end.

Definition split_ws (s : string) : list string := split_ws_aux s EmptyString.

(** Python's [sub in s]. *)
Fixpoint contains (sub s : string) : bool :=
  prefix sub s ||
  match s with
  | EmptyString => false
  | String _ s' => contains sub s'
  end.

(** Python's [s.replace(old_char, "")] for one character. *)
Fixpoint remove_char (c : ascii) (s : string) : string :=
  match s with
  | EmptyString => EmptyString
  | String c' s' => if Ascii.eqb c c' then remove_char c s' else String c' (remove_char c s')
  end.

(* ================================================================== *)
(** ** Python regular expressions (the subset the source uses)

    The patterns of the source use literal characters, [.], [\d],
    escapes such as [\*] and [\.], the postfix operators [*], [+], [?]
    and top-level alternation [|]; [re.escape] output is also in this
    subset.  No groups, classes or anchors occur. *)

Inductive regex :=
| REps
| RChr (c : ascii)
| RAny                        (* [.]: any character but newline *)
| RDigit                      (* [\d] *)
| RSeq (r1 r2 : regex)
| RAlt (r1 r2 : regex)
| RStar (r : regex).

Definition newline : ascii := ascii_of_nat 10.

(** The suffixes left by iterating [step]; only non-empty steps are
    iterated, which reaches the same end positions as the backtracking
    engine, and [n] bounds the number of iterations. *)
Fixpoint star_rests (step : string -> list string) (n : nat) (s : string) : list string :=
  match n with
  | O => [s]
  | S n' =>
      s :: flat_map (fun t => if (String.length t <? String.length s)%nat
                              then star_rests step n' t else [])
                    (step s)
  end.

(** All the suffixes of [s] left after [r] matches a prefix of [s]. *)
Fixpoint rests (r : regex) (s : string) {struct r} : list string :=
  match r with
  | REps => [s]
  | RChr c =>
      match s with
      | String c' t => if Ascii.eqb c c' then [t] else []
      | EmptyString => []
      end
  | RAny =>
      match s with
      | String c' t => if Ascii.eqb c' newline then [] else [t]
      | EmptyString => []
      end
  | RDigit =>
      match s with
      | String c' t => if is_digit c' then [t] else []
      | EmptyString => []
      end
  | RSeq r1 r2 => flat_map (rests r2) (rests r1 s)
  | RAlt r1 r2 => rests r1 s ++ rests r2 s
  | RStar r1 => star_rests (rests r1) (String.length s) s
  end.

(** [re.match(r, s) is not None]: [r] matches some prefix of [s]. *)
Definition re_match (r : regex) (s : string) : bool :=
  match rests r s with [] => false | _ => true end.

(** Compiling pattern text.  [acc] holds the atoms of the current
    branch (reversed), [brs] the finished branches (reversed). *)
Definition postfix (f : regex -> regex) (acc : list regex) : list regex :=
  match acc with
  | a :: acc' => f a :: acc'
  | [] => []
  end.

Fixpoint seq_of (atoms : list regex) : regex :=
  match atoms with
  | [] => REps
  | [a] => a
  | a :: atoms' => RSeq a (seq_of atoms')
  end.

Fixpoint alt_of (brs : list regex) : regex :=
  match brs with
  | [] => REps
  | [b] => b
  | b :: brs' => RAlt b (alt_of brs')
  end.

Fixpoint parse_branches (s : string) (acc : list regex) (brs : list (list regex))
  : list (list regex) :=
  match s with
  | EmptyString => rev (rev acc :: brs)
  | String "|" s' => parse_branches s' [] (rev acc :: brs)
  | String "\" (String "d" s') => parse_branches s' (RDigit :: acc) brs
  | String "\" (String c s') => parse_branches s' (RChr c :: acc) brs
  | String "." s' => parse_branches s' (RAny :: acc) brs
  | String "*" s' => parse_branches s' (postfix RStar acc) brs
  | String "+" s' => parse_branches s' (postfix (fun a => RSeq a (RStar a)) acc) brs
  | String "?" s' => parse_branches s' (postfix (fun a => RAlt a REps) acc) brs
  | String c s' => parse_branches s' (RChr c :: acc) brs
  end.

Definition compile (p : string) : regex :=
  alt_of (map seq_of (parse_branches p [] [])).

(** [re.escape] (Python 3.7+): a backslash before each special character. *)
Definition re_special : string := "()[]{}?*+-|^$\.&~# " ++
  String (ascii_of_nat 9) (String (ascii_of_nat 10) (String (ascii_of_nat 13)
  (String (ascii_of_nat 11) (String (ascii_of_nat 12) EmptyString)))).

Fixpoint re_escape (s : string) : string :=
  match s with
  | EmptyString => EmptyString
  | String c s' =>
      if contains (String c EmptyString) re_special
      then String "\" (String c (re_escape s'))
      else String c (re_escape s')
  end.

(* ================================================================== *)
(** ** Vendor normalisation *)

(** [for pattern, vendor in patterns: if re.match(pattern, d): return vendor]
    then [return d.split()[0] if d else ""].  [d.split()[0]] raises
    [IndexError] when [d] has no token. *)
Definition normalize_with (patterns : list (string * string)) (desc : option string)
  : result string :=
  let d := upper (match desc with Some s => s | None => EmptyString end) in
  match find (fun pv => re_match (compile (fst pv)) d) patterns with
  | Some (_, vendor) => Ok vendor
  | None =>
      match d with
      | EmptyString => Ok EmptyString
      | _ => match split_ws d with
             | t :: _ => Ok t
             | [] => Raise IndexError
             end
      end
  end.

Module Cli.

(** [patterns] of [normalize_vendor] in [generate_reports_cli.py]. *)
Definition patterns : list (string * string) := [
  ("KROGER.*", "KROGER");
  ("INDIFRESH.*|TST\*INDI FRESH.*", "INDIFRESH");
  ("CHERIANS INTERNATIONAL.*", "CHERIANS INTERNATIONAL");
  ("FRESH MEAT IN MART.*", "FRESH MEAT IN MART");
  ("WEGMANS.*", "WEGMANS");
  ("PUBLIX.*", "PUBLIX");
  ("FCS FOOD AND NUTRITION.*", "FCS FOOD AND NUTRITION");
  ("AMAZON.*", "AMAZON");
  ("COSTCO WHSE.*", "COSTCO");
  ("COSTCO GAS.*", "COSTCO GAS");
  ("KROGER FUEL.*", "KROGER FUEL");
  ("SQ \*NALAN INDIAN CUISINE.*", "NALAN INDIAN CUISINE");
  ("TACO BELL.*", "TACO BELL");
  ("DOMINO'S.*", "DOMINOS");
  ("TARGET.*", "TARGET");
  ("WAL-?MART.*", "WALMART");
  ("DOLLAR TREE.*", "DOLLAR TREE");
  ("SHELL OIL.*", "SHELL");
  ("MCDONALD'S.*", "MCDONALDS");
  ("DUNKIN.*", "DUNKIN");
  ("CHIPOTLE.*", "CHIPOTLE");
  ("SUBWAY.*", "SUBWAY");
  ("LEAGUE TENNIS.*", "LEAGUE TENNIS");
  ("TELLO US.*", "TELLO");
  ("TMOBILE\*AUTO PAY.*", "TMOBILE");
  ("COMCAST-XFINITY.*", "COMCAST");
  ("SAWNEE ELECTRIC MEMBERSH.*", "SAWNEE ELECTRIC");
  ("CONSTELLATION NEW ENERGY.*", "CONSTELLATION ENERGY");
  ("FC WATER&SEWER.*", "FC WATER&SEWER");
  ("RED OAK SANITATION.*", "RED OAK SANITATION");
  ("WWP\*GOT BUGS INC.*", "WWP GOT BUGS");
  ("TRAVELERS-GEICO AGENCY.*", "TRAVELERS-GEICO");
  ("AAA LIFE INSURANCE.*", "AAA LIFE INSURANCE");
  ("THE EMORY CLINIC, INC.*", "EMORY CLINIC");
  ("TELADOC.*", "TELADOC");
  ("HAWKMUSICACADEMY.*", "HAWKMUSIC ACADEMY");
  ("JFI\*URBAN AIR.*", "URBAN AIR");
  ("AMC .*|AMC \d+ ONLINE.*", "AMC");
  ("TJ MAXX.*", "TJ MAXX");
  ("TST\* DESI DISTRICT.*", "DESI DISTRICT");
  ("SQ \*BEAUTY AMBASSADORS.*", "BEAUTY AMBASSADORS");
  ("TANISHQ - ATLANTA.*", "TANISHQ");
  ("THE HOME DEPOT .*", "HOME DEPOT");
  ("WAWA 118.*", "WAWA");
  ("ATGPAY ONLINE PA.*", "ATGPAY");
  ("NSM DBAMR\.COOPER.*", "NSM DBAMR.COOPER");
  ("HOMEDEPOT.*", "HOME DEPOT");
  ("DOLLAR-GENERAL.*", "DOLLAR TREE");
  ("PAYPAL.*", "PAYPAL");
  ("ROSS STORE.*", "ROSS");
  ("FORSYTH COUNTY.*", "FORSYTH COUNTY")
].

Definition normalize_vendor (desc : option string) : result string :=
  normalize_with patterns desc.

Definition groceries : list string :=
  ["KROGER"; "INDIFRESH"; "CHERIANS INTERNATIONAL";
   "FRESH MEAT IN MART"; "WEGMANS"; "PUBLIX";
   "FCS FOOD AND NUTRITION"; "COSTCO"].

Definition restaurants : list string :=
  ["TACO BELL"; "DOMINOS"; "SUBWAY"; "CHIPOTLE";
   "MCDONALDS"; "DESI DISTRICT"; "NALAN INDIAN CUISINE"; "DUNKIN"].

Definition shopping : list string :=
  ["AMAZON"; "BESTBUY"; "TARGET"; "WALMART";
   "TJ MAXX"; "BEAUTY AMBASSADORS"; "TANISHQ"; "ROSS"; "DOLLAR TREE"].

Definition auto_gas : list string := ["COSTCO GAS"; "KROGER FUEL"; "SHELL"; "WAWA"].

Definition utilities : list string :=
  ["COMCAST"; "TMOBILE"; "SAWNEE ELECTRIC";
   "CONSTELLATION ENERGY"; "TELLO"; "TRAVELERS-GEICO";
   "AAA LIFE INSURANCE"; "FC WATER&SEWER";
   "RED OAK SANITATION"; "ATGPAY"; "NSM DBAMR.COOPER"].

Definition health : list string := ["TELADOC"; "EMORY CLINIC"].

Definition entertainment : list string :=
  ["AMC"; "URBAN AIR"; "HAWKMUSIC ACADEMY"; "LEAGUE TENNIS"].

Definition home_services : list string := ["HOME DEPOT"; "WWP GOT BUGS"].

Definition mem (v : string) (xs : list string) : bool := existsb (String.eqb v) xs.

(** The hard-coded classifier of the CLI script. *)
Definition categorize_vendor (vendor : string) : string :=
  let v := upper vendor in
  if mem v groceries then "Groceries & Markets"
  else if mem v restaurants then "Restaurants & Food"
  else if mem v auto_gas then "Auto & Gas"
  else if mem v utilities then "Utilities Bills & Insurance"
  else if mem v health then "Health"
  else if mem v entertainment then "Entertainment"
  else if mem v home_services then "Home & Services"
  else if mem v shopping then "Shopping & Retail"
  else "Shopping & Retail".

Definition INCOME_TRANSFER_KEYWORDS : list string := [
  "PAYROLL"; "ZELLE PAYMENT FROM"; "TRANSFER";
  "OVERDRAFT PROTECTION"; "DEPOSIT";
  "CREDIT CARD BILL PAYMENT"; "CITI AUTOPAY";
  "AUTOPAY"; "ONLINE BANKING PAYMENT"; "ONLINE PAYMENT";
  "ONLINE BANKING PAYMENT TO CRD";
  "BANK OF AMERICA CREDIT CARD BILL PAYMENT";
  "BA ELECTRONIC PAYMENT"; "FID BKG SVC";
  "BEGINNING BALANCE"].

Definition is_income_or_transfer (desc : option string) : bool :=
  let d := upper (match desc with Some s => s | None => EmptyString end) in
  existsb (fun k => contains k d) INCOME_TRANSFER_KEYWORDS.

End Cli.

Example normalize_kroger_123 : Cli.normalize_vendor (Some "Kroger #123") = Ok "KROGER".
Proof. vm_compute. reflexivity. Qed.
Example normalize_amc : Cli.normalize_vendor (Some "AMC 1234 ONLINE") = Ok "AMC".
Proof. vm_compute. reflexivity. Qed.
Example normalize_walmart : Cli.normalize_vendor (Some "WAL-MART #12") = Ok "WALMART".
Proof. vm_compute. reflexivity. Qed.
Example normalize_nsm : Cli.normalize_vendor (Some "NSMXDBAMR") = Ok "NSMXDBAMR".
Proof. vm_compute. reflexivity. Qed.
Example normalize_fallback : Cli.normalize_vendor (Some "  acme store 9") = Ok "ACME".
Proof. vm_compute. reflexivity. Qed.
Example normalize_space : Cli.normalize_vendor (Some " ") = Raise IndexError.
Proof. vm_compute. reflexivity. Qed.

(* ================================================================== *)
(** ** [datetime.strptime] for the formats [%m/%d/%Y], [%m/%d/%y], [%m/%d]

    [_strptime] turns the format into a regular expression (one
    alternation per directive), calls [re.match] on the text, raises
    [ValueError] when nothing matches or when text is left after the
    match, then builds the date, which raises [ValueError] for a day
    that the month does not have. *)

Inductive directive :=
| Dm                (* %m: 1[0-2]|0[1-9]|[1-9] *)
| Dd                (* %d: 3[01]|[12]\d|0[1-9]|[1-9]| [1-9] *)
| DY                (* %Y: \d\d\d\d *)
| Dy                (* %y: \d\d *)
| DSep (c : ascii). (* a literal character of the format *)

(** A character class of those regular expressions, by ASCII code. *)
Inductive cls := KChr (c : ascii) | KRange (lo hi : nat).

Definition digit_cls : cls := KRange 48 57.

Definition directive_alts (d : directive) : list (list cls) :=
  match d with
  | Dm => [[KChr "1"; KRange 48 50]; [KChr "0"; KRange 49 57]; [KRange 49 57]]
  | Dd => [[KChr "3"; KRange 48 49]; [KRange 49 50; digit_cls];
           [KChr "0"; KRange 49 57]; [KRange 49 57]; [KChr " "; KRange 49 57]]
  | DY => [[digit_cls; digit_cls; digit_cls; digit_cls]]
  | Dy => [[digit_cls; digit_cls]]
  | DSep c => [[KChr c]]
  end.

Definition cls_ok (k : cls) (c : ascii) : bool :=
  match k with
  | KChr c' => Ascii.eqb c' c
  | KRange lo hi => (lo <=? nat_of_ascii c)%nat && (nat_of_ascii c <=? hi)%nat
  end.

(** One alternative: a fixed sequence of classes; the matched token and
    the rest of the text. *)
Fixpoint match_alt (ks : list cls) (s : string) : option (string * string) :=
  match ks, s with
  | [], _ => Some (EmptyString, s)
  | k :: ks', String c s' =>
      if cls_ok k c then
        match match_alt ks' s' with
        | Some (tok, rest) => Some (String c tok, rest)
        | None => None
        end
      else None
  | _ :: _, EmptyString => None
  end.

Fixpoint first_some {A B} (f : A -> option B) (xs : list A) : option B :=
  match xs with
  | [] => None
  | x :: xs' => match f x with Some b => Some b | None => first_some f xs' end
  end.

(** [re.match] of the format regex: the first match in backtracking
    order (alternatives left to right), with the token of each directive. *)
Fixpoint match_format (ds : list directive) (s : string)
  : option (list (directive * string) * string) :=
  match ds with
  | [] => Some ([], s)
  | d :: ds' =>
      first_some
        (fun alt =>
           match match_alt alt s with
           | Some (tok, rest) =>
               match match_format ds' rest with
               | Some (caps, r) => Some ((d, tok) :: caps, r)
               | None => None
               end
           | None => None
           end)
        (directive_alts d)
  end.

(** [int(tok)] of a matched token (digits, possibly after a space). *)
Fixpoint digits_value_aux (s : string) (acc : Z) : Z :=
  match s with
  | EmptyString => acc
  | String c s' =>
      if is_digit c then digits_value_aux s' (10 * acc + (Z.of_nat (nat_of_ascii c) - 48))%Z
      else digits_value_aux s' acc
  end.

Definition digits_value (s : string) : Z := digits_value_aux s 0.

Record datetime := mkdt { year : Z; month : Z; day : Z }.

Definition is_leap (y : Z) : bool :=
  (Z.eqb (y mod 4) 0 && negb (Z.eqb (y mod 100) 0)) || Z.eqb (y mod 400) 0.

Definition days_in_month (y m : Z) : Z :=
  match m with
  | 1 | 3 | 5 | 7 | 8 | 10 | 12 => 31
  | 4 | 6 | 9 | 11 => 30
  | 2 => if is_leap y then 29 else 28
  | _ => 0
  end%Z.

(** [datetime(year, month, day)] succeeds exactly on valid dates. *)
Definition mk_datetime (y m d : Z) : result datetime :=
  if (1 <=? y)%Z && (y <=? 9999)%Z && (1 <=? m)%Z && (m <=? 12)%Z
     && (1 <=? d)%Z && (d <=? days_in_month y m)%Z
  then Ok (mkdt y m d)
  else Raise (ValueError "day is out of range for month").

Definition capture (d : directive) (caps : list (directive * string)) : option Z :=
  match find (fun p => match fst p, d with
                       | Dm, Dm | Dd, Dd | DY, DY | Dy, Dy => true
                       | _, _ => false end) caps with
  | Some (_, tok) => Some (digits_value tok)
  | None => None
  end.

(** With no year directive the year is 1900.  (For [02/29] without a
    year, [_strptime] computes with 1904 and then sets the year back to
    1900 before building the date, so the date is still 1900-02-29.) *)
Definition strptime (x : string) (fmt : list directive) : result datetime :=
  match match_format fmt x with
  | None => Raise (ValueError "time data does not match format")
  | Some (caps, rest) =>
      match rest with
      | String _ _ => Raise (ValueError "unconverted data remains")
      | EmptyString =>
          let y := match capture DY caps with
                   | Some y => y
                   | None => match capture Dy caps with
                             | Some y => if (y <=? 68)%Z then (y + 2000)%Z else (y + 1900)%Z
                             | None => 1900%Z
                             end
                   end in
          let m := match capture Dm caps with Some m => m | None => 1%Z end in
          let d := match capture Dd caps with Some d => d | None => 1%Z end in
          mk_datetime y m d
      end
  end.

Definition fmt_mdY : list directive := [Dm; DSep "/"; Dd; DSep "/"; DY].
Definition fmt_mdy : list directive := [Dm; DSep "/"; Dd; DSep "/"; Dy].
Definition fmt_md : list directive := [Dm; DSep "/"; Dd].

(** [dt.replace(year=...)]. *)
Definition replace_year (dt : datetime) (y : Z) : result datetime :=
  mk_datetime y (month dt) (day dt).

(** [parse_date_safe]: the first format that parses; a parsed year 1900
    is replaced by the target year; [ValueError] moves on to the next
    format. *)
Definition parse_date_safe (target_year : Z) (x : string) : option datetime :=
  let x := strip x in
  match x with
  | EmptyString => None
  | _ =>
      first_some
        (fun fmt =>
           match strptime x fmt with
           | Raise _ => None
           | Ok dt =>
               if Z.eqb (year dt) 1900 then
                 match replace_year dt target_year with
                 | Ok dt' => Some dt'
                 | Raise _ => None
                 end
               else Some dt
           end)
        [fmt_mdY; fmt_mdy; fmt_md]
  end.

Example parse_full : parse_date_safe 2026 "02/14/2026" = Some (mkdt 2026 2 14).
Proof. vm_compute. reflexivity. Qed.
Example parse_short_year : parse_date_safe 2026 "2/3/25" = Some (mkdt 2025 2 3).
Proof. vm_compute. reflexivity. Qed.
Example parse_no_year : parse_date_safe 2026 " 12/31 " = Some (mkdt 2026 12 31).
Proof. vm_compute. reflexivity. Qed.
Example parse_bad_day : parse_date_safe 2026 "02/30/2026" = None.
Proof. vm_compute. reflexivity. Qed.
Example parse_feb29 : parse_date_safe 2024 "02/29" = None.
Proof. vm_compute. reflexivity. Qed.

(* ================================================================== *)
(** ** Amounts *)


(** A float amount: a finite value, kept exact, or NaN.  Every float of
    the modelled code comes from decimal text, as the correctly rounded
    value of the exact decimal kept here, and two equal exact values
    give the same float. *)
Inductive num := Num (q : Qc) | NaN.

(** [float(s)] on the decimal grammar [sign digits [. digits] [e sign digits]]
    (surrounding whitespace allowed) and [nan]; other text raises
    [ValueError]. ([inf] and underscore spellings are not modelled.) *)
Fixpoint read_digits (s : string) (acc : Z) (n : nat) : Z * nat * string :=
  match s with
  | String c s' =>
      if is_digit c then read_digits s' (10 * acc + (Z.of_nat (nat_of_ascii c) - 48))%Z (S n)
      else (acc, n, s)
  | EmptyString => (acc, n, s)
  end.

Definition read_sign (s : string) : Z * string :=
  match s with
  | String "-" s' => (-1, s')%Z
  | String "+" s' => (1, s')%Z
  | _ => (1%Z, s)
  end.

Definition digit_val (c : ascii) : Z := (Z.of_nat (nat_of_ascii c) - 48)%Z.

(** The digits after the first one of a base-10 literal; a single [_] may
    stand between two digits. *)
Fixpoint int_body (s : string) (acc : Z) : option Z :=
  match s with
  | EmptyString => Some acc
  | String "_" (String c s') =>
      if is_digit c then int_body s' (10 * acc + digit_val c)%Z else None
  | String c s' =>
      if is_digit c then int_body s' (10 * acc + digit_val c)%Z else None
  end.

(** [int(s)] on a string: surrounding whitespace, an optional sign, then
    digits (with single underscores between digits); [None] is the
    [ValueError]. *)
Definition int_text (s : string) : option Z :=
  let '(sg, s1) := read_sign (strip s) in
  match s1 with
  | String c s' => if is_digit c then option_map (Z.mul sg) (int_body s' (digit_val c)) else None
  | EmptyString => None
  end.

Definition pow10 (n : nat) : Z := Z.pow 10 (Z.of_nat n).

Definition parse_float (s : string) : option num :=
  let s := strip s in
  if String.eqb (lower s) "nan" then Some NaN else
  let '(sg, s1) := read_sign s in
  let '(ip, ni, s2) := read_digits s1 0 O in
  let '(fp, nf, s3) :=
    match s2 with
    | String "." s2' => read_digits s2' 0 O
    | _ => (0%Z, O, s2)
    end in
  if (ni + nf =? 0)%nat then None else
  let mant := (sg * (ip * pow10 nf + fp))%Z in
  let base := Qmake mant (Z.to_pos (pow10 nf)) in
  match s3 with
  | EmptyString => Some (Num (Q2Qc base))
  | String c s4 =>
      if Ascii.eqb c "e" || Ascii.eqb c "E" then
        let '(esg, s5) := read_sign s4 in
        let '(ev, ne, s6) := read_digits s5 0 O in
        match ne, s6 with
        | S _, EmptyString =>
            let e := (esg * ev)%Z in
            let scale := if (0 <=? e)%Z then inject_Z (Z.pow 10 e)
                         else Qmake 1 (Z.to_pos (Z.pow 10 (- e))) in
            Some (Num (Q2Qc (base * scale)))
        | _, _ => None
        end
      else None
  end.

(** The text pandas gives for a cell under [astype(str)]; for numbers
    only the absence of a [/] matters to the code that reads it. *)
Definition cell_to_str (c : cell) : string :=
  match c with
  | CStr s => s
  | CNum q => NilEmpty.string_of_int (Z.to_int (Qnum q))
  | CNaN => "nan"
  end.

(** [col.astype(str).str.replace(",", "").astype(float)] on one cell. *)
Definition amount_of_cell (c : cell) : result num :=
  match c with
  | CStr s =>
      match parse_float (remove_char "," s) with
      | Some n => Ok n
      | None => Raise (ValueError "could not convert string to float")
      end
  | CNum q => Ok (Num (Q2Qc q))
  | CNaN => Ok NaN
  end.

(** [pd.to_numeric(col.astype(str).str.replace(",", ""), errors="coerce").fillna(0)]
    on one cell. *)
Definition numeric_or_zero (c : cell) : Qc :=
  match c with
  | CStr s =>
      match parse_float (remove_char "," s) with
      | Some (Num q) => q
      | _ => 0%Qc
      end
  | CNum q => Q2Qc q
  | CNaN => 0%Qc
  end.

(** [credit - debit] of FORMAT 3. *)
Definition credit_debit_amount (credit debit : cell) : num :=
  Num (numeric_or_zero credit - numeric_or_zero debit)%Qc.

(* ================================================================== *)
(** ** Month filter and statement loader of the CLI script *)

(** [filter_to_month]: [parsed_date] is the column of [parse_date_safe];
    pandas gives that column a datetime dtype when at least one value is
    a date, and otherwise (no row, or no parseable date) an object
    dtype, on which [.dt] raises [AttributeError]. Rows kept: parsed
    month and year equal to the target. *)
Definition filter_to_month {R} (target_month target_year : Z) (date_of : R -> cell)
    (rows : list R) : result (list (R * datetime)) :=
  let parsed := map (fun r => (r, parse_date_safe target_year (cell_to_str (date_of r)))) rows in
  if existsb (fun p => match snd p with Some _ => true | None => false end) parsed then
    Ok (flat_map (fun p => match snd p with
                           | Some dt => if Z.eqb (month dt) target_month && Z.eqb (year dt) target_year
                                        then [(fst p, dt)] else []
                           | None => []
                           end) parsed)
  else Raise (AttributeError "Can only use .dt accessor with datetimelike values").

(** A frame as read from a file: column names and rows of cells. *)
Record frame := mkframe { columns : list string; rows : list (list cell) }.

Fixpoint index_of (c : string) (cols : list string) : option nat :=
  match cols with
  | [] => None
  | c' :: cols' => if String.eqb c c' then Some O
                   else match index_of c cols' with Some i => Some (S i) | None => None end
  end.

Definition has_col (c : string) (cols : list string) : bool :=
  match index_of c cols with Some _ => true | None => false end.

(** The position of column [name]; [KeyError] when it is missing. *)
Definition col_idx (cols : list string) (name : string) : result nat :=
  match index_of name cols with
  | Some i => Ok i
  | None => Raise (KeyError name)
  end.

(** The description handed to [desc or ""]: a string; a zero number is
    falsy and gives [""]; NaN or another number raises on [.upper()]. *)
Definition desc_arg (c : cell) : result (option string) :=
  match c with
  | CStr s => Ok (Some s)
  | CNum q => if Qeq_bool q 0 then Ok None
              else Raise (AttributeError "'float' object has no attribute 'upper'")
  | CNaN => Raise (AttributeError "'float' object has no attribute 'upper'")
  end.

(** A row of the uniform table [date, vendor, category, amount]. *)
Record txn := mktxn { t_date : cell; t_vendor : string; t_category : string; t_amount : num }.

(** A row between the steps of a schema: date, description, amount. *)
Definition stage := (cell * cell * num)%type.

(** [df = df[~df["description"].apply(is_income_or_transfer)]]. *)
Definition income_filter (rs : list stage) : result (list stage) :=
  flags <- map_result (fun r => let '(_, d, _) := r in
                                 a <- desc_arg d ;; Ok (Cli.is_income_or_transfer a)) rs ;;
  Ok (map fst (filter (fun p => negb (snd p)) (combine rs flags))).

(** [filter_to_month], then the vendor and category columns. *)
Definition finish (tm ty : Z) (rs : list stage) : result (list txn) :=
  kept <- filter_to_month tm ty (fun r : stage => let '(dt, _, _) := r in dt) rs ;;
  map_result (fun p => let '((dt, d, a), _) := p in
                       arg <- desc_arg d ;;
                       v <- Cli.normalize_vendor arg ;;
                       Ok (mktxn dt v (Cli.categorize_vendor v) a)) kept.

(** [df[[date_c, desc_c, amt_c]]] (a [KeyError] for a missing column),
    then the amount column converted to float. *)
Definition stage_rows (cols : list string) (date_c desc_c amt_c : string)
    (rs : list (list cell)) : result (list stage) :=
  i <- col_idx cols date_c ;;
  j <- col_idx cols desc_c ;;
  k <- col_idx cols amt_c ;;
  map_result (fun row => n <- amount_of_cell (nth k row CNaN) ;;
                         Ok (nth i row CNaN, nth j row CNaN, n)) rs.

(** FORMAT 3: [df["amount"] = credit - debit]. *)
Definition credit_debit_rows (cols : list string) (rs : list (list cell)) : result (list stage) :=
  i <- col_idx cols "date" ;;
  j <- col_idx cols "description" ;;
  c <- col_idx cols "credit" ;;
  d <- col_idx cols "debit" ;;
  Ok (map (fun row => (nth i row CNaN, nth j row CNaN,
                       credit_debit_amount (nth c row CNaN) (nth d row CNaN))) rs).

Definition ends_with (suf s : string) : bool :=
  prefix (rev_string suf EmptyString) (rev_string s EmptyString).

(** A statement file, seen through the readers the loader calls: the
    PDF extraction, [pd.read_csv(path)] and [pd.read_csv(path, skiprows=5)]. *)
Record stmt_file := mkfile {
  path : string;
  pdf_extract : result frame;
  read_csv : result frame;
  read_csv_skip5 : result frame }.

Definition read_frame (f : stmt_file) : result frame :=
  if ends_with ".pdf" (lower (path f)) then pdf_extract f
  else match read_csv f with
       | Ok fr => Ok fr
       | Raise _ => read_csv_skip5 f
       end.

(** [load_any_statement] of [generate_reports_cli.py]: the four schemas
    in order.  FORMAT 3 has no income/transfer filter in this copy. *)
Definition load_any_statement (target_month target_year : Z) (f : stmt_file)
  : result (list txn) :=
  fr <- read_frame f ;;
  let cols := map (fun c => lower (strip c)) (columns fr) in
  let rs := rows fr in
  if existsb (contains "bal") cols && has_col "amount" cols && has_col "description" cols then
    st <- stage_rows cols "date" "description" "amount" rs ;;
    st' <- income_filter st ;;
    finish target_month target_year st'
  else if has_col "posted date" cols && has_col "payee" cols && has_col "amount" cols then
    st <- stage_rows cols "posted date" "payee" "amount" rs ;;
    st' <- income_filter st ;;
    finish target_month target_year st'
  else if has_col "credit" cols && has_col "debit" cols && has_col "description" cols
          && has_col "date" cols then
    st <- credit_debit_rows cols rs ;;
    finish target_month target_year st
  else if has_col "date" cols && has_col "description" cols && has_col "amount" cols then
    st <- stage_rows cols "date" "description" "amount" rs ;;
    st' <- income_filter st ;;
    finish target_month target_year st'
  else Raise (ValueError ("Unrecognized format in file: " ++ path f)).

(** The batch loop: each file is loaded inside [try]/[except Exception]. *)
Inductive log_line :=
| Processing (p : string)
| Loaded (n : nat)
| Skipping (e : py_error)
| Warning (e : py_error)
| PdfError (e : py_error).

(** [print(f"Error extracting PDF: {e}")], printed by [load_any_statement]
    before it re-raises a failure of [extract_from_pdf]. *)
Definition read_frame_log (f : stmt_file) : list log_line :=
  if ends_with ".pdf" (lower (path f)) then
    match pdf_extract f with
    | Raise e => [PdfError e]
    | Ok _ => []
    end
  else [].

Fixpoint load_files (target_month target_year : Z) (fs : list stmt_file)
  : list (list txn) * list log_line :=
  match fs with
  | [] => ([], [])
  | f :: fs' =>
      let '(dfs, log) := load_files target_month target_year fs' in
      match load_any_statement target_month target_year f with
      | Ok df => (df :: dfs, Processing (path f) :: Loaded (length df) :: log)
      | Raise e => (dfs, Processing (path f) :: (read_frame_log f ++ Skipping e :: log)%list)
      end
  end.

(** [if not all_dfs: exit(1)], otherwise [pd.concat(all_dfs)]. *)
Inductive batch_outcome := Exit1 | Proceed (all_txns : list txn).

Definition run_batch (target_month target_year : Z) (fs : list stmt_file)
  : batch_outcome * list log_line :=
  let '(dfs, log) := load_files target_month target_year fs in
  (match dfs with [] => Exit1 | _ => Proceed (concat dfs) end, log).

(* ================================================================== *)
(** ** Reports *)

Definition category_order : list string := [
  "Groceries & Markets";
  "Restaurants & Food";
  "Shopping & Retail";
  "Auto & Gas";
  "Utilities Bills & Insurance";
  "Health";
  "Entertainment";
  "Home & Services"].

(** Python's [sum], computed here in exact rational arithmetic.  The code
    adds doubles, each addition rounded; the two agree whenever every
    partial sum is representable (as for amounts in cents of moderate
    size), and may differ otherwise, so totals are only compared with
    the code's output on inputs whose sums are exact in doubles. *)
Definition qsum (l : list Qc) : Qc := fold_right Qcplus 0%Qc l.

(** pandas [Series.sum()]: NaN values are skipped; the sum is exact, see
    [qsum]. *)
Definition pandas_sum (l : list num) : Qc :=
  qsum (flat_map (fun n => match n with Num q => [q] | NaN => [] end) l).

(** [cat_df = all_txns[all_txns["Category"] == cat]]. *)
Definition cat_rows (cat : string) (txns : list txn) : list txn :=
  filter (fun t => String.eqb (t_category t) cat) txns.

(** [groupby("Vendor")["Amount"].sum()]: one row per vendor, sorted. *)
Fixpoint insert_sorted (v : string) (l : list string) : list string :=
  match l with
  | [] => [v]
  | w :: l' => if String.eqb v w then l
               else if String.ltb v w then v :: l else w :: insert_sorted v l'
  end.

Definition vendor_totals (rs : list txn) : list (string * Qc) :=
  map (fun v => (v, pandas_sum (map t_amount (filter (fun t => String.eqb (t_vendor t) v) rs))))
      (fold_right insert_sorted [] (map t_vendor rs)).

(** Report 1: per non-empty category, its vendor totals and the category
    total (the sum of the vendor totals), both exact, see [qsum]. *)
Definition report1_sections (txns : list txn) : list (string * list (string * Qc) * Qc) :=
  flat_map (fun cat => match cat_rows cat txns with
                       | [] => []
                       | rs => let vt := vendor_totals rs in [(cat, vt, qsum (map snd vt))]
                       end) category_order.

(** Report 2: [cat_totals], [grand_total] and the percentages. *)
Definition cat_totals (txns : list txn) : list (string * Qc) :=
  flat_map (fun cat => match cat_rows cat txns with
                       | [] => []
                       | rs => [(cat, pandas_sum (map t_amount rs))]
                       end) category_order.

Definition grand_total (txns : list txn) : Qc := qsum (map snd (cat_totals txns)).

(** [abs(total) / abs(grand_total) * 100 if grand_total != 0 else 0], in
    exact arithmetic; the code's double division and product round. *)
Definition percent (total grand : Qc) : Qc :=
  if Qeq_bool grand 0 then 0%Qc else (Qcabs total / Qcabs grand * Q2Qc 100)%Qc.

Definition report2_rows (txns : list txn) : list (string * Qc * Qc) :=
  map (fun ct => (fst ct, snd ct, percent (snd ct) (grand_total txns))) (cat_totals txns).

(* ================================================================== *)
(** ** Rule-based classifier of [report/generate_reports_email.py] *)

Module Email.

(** [patterns] of [normalize_vendor] in [report/generate_reports_email.py]. *)
Definition patterns : list (string * string) := [
  ("KROGER.*", "KROGER");
  ("INDIFRESH.*|TST\*INDI FRESH.*", "INDIFRESH");
  ("CHERIANS INTERNATIONAL.*", "CHERIANS INTERNATIONAL");
  ("FRESH MEAT IN MART.*", "FRESH MEAT IN MART");
  ("WEGMANS.*", "WEGMANS");
  ("PUBLIX.*", "PUBLIX");
  ("FCS FOOD AND NUTRITION.*", "FCS FOOD AND NUTRITION");
  ("AMAZON.*", "AMAZON");
  ("COSTCO WHSE.*", "COSTCO");
  ("COSTCO GAS.*", "COSTCO GAS");
  ("KROGER FUEL.*", "KROGER FUEL");
  ("SQ \*NALAN INDIAN CUISINE.*", "NALAN INDIAN CUISINE");
  ("TACO BELL.*", "TACO BELL");
  ("DOMINO'S.*", "DOMINOS");
  ("TARGET.*", "TARGET");
  ("WAL-?MART.*", "WALMART");
  ("DOLLAR TREE.*", "DOLLAR TREE");
  ("SHELL OIL.*", "SHELL");
  ("MCDONALD'S.*", "MCDONALDS");
  ("DUNKIN.*", "DUNKIN");
  ("CHIPOTLE.*", "CHIPOTLE");
  ("SUBWAY.*", "SUBWAY");
  ("LEAGUE TENNIS.*", "LEAGUE TENNIS");
  ("TELLO US.*", "TELLO");
  ("TMOBILE\*AUTO PAY.*", "TMOBILE");
  ("COMCAST-XFINITY.*", "COMCAST");
  ("SAWNEE ELECTRIC MEMBERSH.*", "SAWNEE ELECTRIC");
  ("CONSTELLATION NEW ENERGY.*", "CONSTELLATION ENERGY");
  ("FC WATER&SEWER.*", "FC WATER&SEWER");
  ("RED OAK SANITATION.*", "RED OAK SANITATION");
  ("WWP\*GOT BUGS INC.*", "WWP GOT BUGS");
  ("TRAVELERS-GEICO AGENCY.*", "TRAVELERS-GEICO");
  ("AAA LIFE INSURANCE.*", "AAA LIFE INSURANCE");
  ("THE EMORY CLINIC, INC.*", "EMORY CLINIC");
  ("TELADOC.*", "TELADOC");
  ("HAWKMUSICACADEMY.*", "HAWKMUSIC ACADEMY");
  ("JFI\*URBAN AIR.*", "URBAN AIR");
  ("AMC .*|AMC \d+ ONLINE.*", "AMC");
  ("TJ MAXX.*", "TJ MAXX");
  ("TST\* DESI DISTRICT.*", "DESI DISTRICT");
  ("TST\*DESI.*|SQ \*DESI.*", "DESI DISTRICT");
  ("SQ \*BEAUTY AMBASSADORS.*", "BEAUTY AMBASSADORS");
  ("TANISHQ - ATLANTA.*", "TANISHQ");
  ("THE HOME DEPOT .*", "HOME DEPOT");
  ("WAWA 118.*", "WAWA");
  ("ATGPAY ONLINE PA.*", "ATGPAY");
  ("NSM DBAMR\.COOPER.*", "NSM DBAMR.COOPER");
  ("HOMEDEPOT.*", "HOME DEPOT");
  ("DOLLAR-GENERAL.*", "DOLLAR TREE");
  ("PAYPAL.*", "PAYPAL");
  ("ROSS STORE.*", "ROSS");
  ("FORSYTH COUNTY.*", "FORSYTH COUNTY");
  ("PATEL BROTHERS.*", "PATEL BROTHERS")
].

Definition normalize_vendor (desc : option string) : result string :=
  normalize_with patterns desc.


(** A loaded rule (the dict built by [load_category_rules]). *)
Record rule := mkrule {
  rule_id : cell;
  priority : Z;
  vendor_pattern : string;
  category : cell;
  explanation : cell;
  override_rule_id : cell;
  is_custom : cell }.

(** A row of [category_rules.csv]: its columns with their cells. *)
Definition csv_row := list (string * cell).

(** [row[k]]; [KeyError] for a missing column. *)
Definition row_get (row : csv_row) (k : string) : result cell :=
  match find (fun kc => String.eqb (fst kc) k) row with
  | Some (_, c) => Ok c
  | None => Raise (KeyError k)
  end.

Definition row_has (row : csv_row) (k : string) : bool :=
  existsb (fun kc => String.eqb (fst kc) k) row.

(** [int(x)] for a cell: a float is truncated, NaN raises, a string is
    read by [int_text] (optional sign and digits with single underscores
    between them, surrounding whitespace allowed). *)
Definition py_int (c : cell) : result Z :=
  match c with
  | CNum q => Ok (Z.quot (Qnum q) (Zpos (Qden q)))
  | CNaN => Raise (ValueError "cannot convert float NaN to integer")
  | CStr s =>
      match int_text s with
      | Some v => Ok v
      | None => Raise (ValueError "invalid literal for int()")
      end
  end.

(** [x.upper()] for a cell; only strings have it. *)
Definition cell_upper (c : cell) : result string :=
  match c with
  | CStr s => Ok (upper s)
  | _ => Raise (AttributeError "object has no attribute 'upper'")
  end.

Definition is_na (c : cell) : bool := match c with CNaN => true | _ => false end.

(** The body of the [for _, row in rules_df.iterrows()] loop. *)
Definition convert_row (row : csv_row) : result rule :=
  override_id <- (if row_has row "OverrideRuleID" then row_get row "OverrideRuleID"
                  else Ok (CStr "")) ;;
  is_custom <- (if row_has row "IsCustom" then row_get row "IsCustom" else Ok (CStr "No")) ;;
  let override_id := if is_na override_id then CStr "" else override_id in
  rid <- row_get row "RuleID" ;;
  pc <- row_get row "Priority" ;;
  p <- py_int pc ;;
  vc <- row_get row "VendorPattern" ;;
  vp <- cell_upper vc ;;
  cat <- row_get row "Category" ;;
  expl <- row_get row "Explanation" ;;
  Ok (mkrule rid p vp cat expl override_id is_custom).

(** What [pd.read_csv] makes of a rules file: a table, or an error. *)
Inductive rules_csv :=
| RulesTable (rows : list csv_row)
| RulesUnreadable (e : py_error).

(** [category_rules.csv] in the working directory and next to the script. *)
Record rules_files := mkfiles {
  cwd_rules : option rules_csv;
  script_dir_rules : option rules_csv }.

(** [rules_file] is the working-directory file if it exists, else the
    one next to the script; [pd.read_csv] of a missing file raises. *)
Definition read_rules_file (fs : rules_files) : result (list csv_row) :=
  let chosen := match cwd_rules fs with
                | Some f => Some f
                | None => script_dir_rules fs
                end in
  match chosen with
  | None => Raise FileNotFoundError
  | Some (RulesUnreadable e) => Raise e
  | Some (RulesTable rows) => Ok rows
  end.

(** The rules in file order, or the exception the [try] body raises. *)
Definition rules_of_file (fs : rules_files) : result (list rule) :=
  rows <- read_rules_file fs ;; map_result convert_row rows.

(** [rules.sort(key=lambda x: x['priority'], reverse=True)]: stable, so
    rules of equal priority keep their file order. *)
Fixpoint insert_rule (r : rule) (l : list rule) : list rule :=
  match l with
  | [] => [r]
  | x :: l' => if (priority r <=? priority x)%Z then x :: insert_rule r l' else r :: l
  end.

Definition sort_rules (rs : list rule) : list rule :=
  fold_left (fun acc r => insert_rule r acc) rs [].

(** [load_category_rules] with the module-level cache: the cache is
    set only when loading succeeds; on an exception a warning is printed
    and [[]] returned. *)
Definition load_category_rules (fs : rules_files) (cache : option (list rule))
  : list rule * option (list rule) * list log_line :=
  match cache with
  | Some rules => (rules, cache, [])
  | None =>
      match rules_of_file fs with
      | Ok rules => let sorted := sort_rules rules in (sorted, Some sorted, [])
      | Raise e => ([], None, [Warning e])
      end
  end.

Definition default_category : cell := CStr "Shopping & Retail".

(** [re.match(f".*{re.escape(pattern)}.*", v)]. *)
Definition rule_matches (r : rule) (v : string) : bool :=
  re_match (compile (".*" ++ re_escape (vendor_pattern r) ++ ".*")) v.

Definition categorize_vendor (fs : rules_files) (cache : option (list rule)) (vendor : string)
  : cell * option (list rule) * list log_line :=
  let v := upper vendor in
  let '(rules, cache', log) := load_category_rules fs cache in
  (match find (fun r => rule_matches r v) rules with
   | Some r => category r
   | None => default_category
   end, cache', log).

End Email.

(* ================================================================== *)
(** ** File selection of the two report scripts *)

(** Python's [s.split(sep)] for a one-character separator: the pieces
    between separators, empty ones included. [cur] is reversed. *)
Fixpoint split_on_aux (sep : ascii) (s : string) (cur : string) : list string :=
  match s with
  | EmptyString => [rev_string cur EmptyString]
  | String c s' =>
      if Ascii.eqb c sep then rev_string cur EmptyString :: split_on_aux sep s' EmptyString
      else split_on_aux sep s' (String c cur)
  end.

Definition split_on (sep : ascii) (s : string) : list string := split_on_aux sep s EmptyString.

Fixpoint all_some {A} (xs : list (option A)) : option (list A) :=
  match xs with
  | [] => Some []
  | Some x :: xs' => option_map (cons x) (all_some xs')
  | None :: _ => None
  end.

(** [file_input = input("> ").strip()]; with text, the numbers between
    commas, less one, are the indices ([ValueError] for any piece that is
    not an integer selects every file); indices outside the list are
    dropped. *)
Definition select_files (available_files : list string) (file_input : string) : list string :=
  match strip file_input with
  | EmptyString => available_files
  | inp =>
      match all_some (map (fun x => int_text (strip x)) (split_on "," inp)) with
      | None => available_files
      | Some ns =>
          flat_map (fun n => let i := (n - 1)%Z in
                             if (0 <=? i)%Z && (i <? Z.of_nat (length available_files))%Z
                             then [nth (Z.to_nat i) available_files EmptyString] else [])
                   ns
      end
  end.

(* ================================================================== *)
(** ** PDF extraction ([extract_from_pdf], the same in both scripts) *)

(** A regular expression built of single-character classes, one-or-more
    repetitions of a class (greedy or lazy), concatenation and groups. *)
Inductive pat :=
| PCls (f : ascii -> bool)
| PPlus (greedy : bool) (f : ascii -> bool)
| PCat (p1 p2 : pat)
| PGroup (p : pat).

(** The suffixes of [s] after 1, 2, ... characters of the class [f]. *)
Fixpoint run_suffixes (f : ascii -> bool) (s : string) : list string :=
  match s with
  | String c t => if f c then t :: run_suffixes f t else []
  | EmptyString => []
  end.

(** [s] without its suffix [t]: the text a match consumed. *)
Definition consumed (s t : string) : string :=
  substring 0 (String.length s - String.length t) s.

(** All the matches of [p] at the start of [s], in the order the
    backtracking engine tries them: the rest of the text and the groups
    captured, numbered by their opening parenthesis.  A greedy repetition
    of one class tries the longest run first, a lazy one the shortest. *)
Fixpoint pm (p : pat) (s : string) : list (string * list string) :=
  match p with
  | PCls f =>
      match s with
      | String c t => if f c then [(t, [])] else []
      | EmptyString => []
      end
  | PPlus greedy f =>
      let ks := run_suffixes f s in
      map (fun t => (t, [])) (if greedy then rev ks else ks)
  | PCat p1 p2 =>
      flat_map (fun r1 => map (fun r2 => (fst r2, (snd r1 ++ snd r2)%list)) (pm p2 (fst r1)))
               (pm p1 s)
  | PGroup p1 => map (fun r => (fst r, consumed s (fst r) :: snd r)) (pm p1 s)
  end.

(** [re.search(p, s)]: the first match at the leftmost position; its groups. *)
Fixpoint search (p : pat) (s : string) : option (list string) :=
  match pm p s with
  | r :: _ => Some (snd r)
  | [] => match s with
          | String _ t => search p t
          | EmptyString => None
          end
  end.

Definition is_char (c : ascii) (d : ascii) : bool := Ascii.eqb c d.

(** [.]: any character but a newline. *)
Definition not_newline (c : ascii) : bool := negb (Ascii.eqb c newline).

(** [[\d,\.]]. *)
Definition amount_char (c : ascii) : bool := is_digit c || Ascii.eqb c "," || Ascii.eqb c ".".

(** [\d{2}/\d{2}]. *)
Definition date_pat : pat :=
  PCat (PCls is_digit) (PCat (PCls is_digit) (PCat (PCls (is_char "/"))
    (PCat (PCls is_digit) (PCls is_digit)))).

(** [(\d{2}/\d{2})\s+(\d{2}/\d{2})\s+(.+?)\s+(\$[\d,\.]+)]. *)
Definition pdf_pattern : pat :=
  PCat (PGroup date_pat) (PCat (PPlus true is_space)
  (PCat (PGroup date_pat) (PCat (PPlus true is_space)
  (PCat (PGroup (PPlus false not_newline)) (PCat (PPlus true is_space)
  (PGroup (PCat (PCls (is_char "$")) (PPlus true amount_char)))))))).

Definition section_end_keywords : list string :=
  ["fees charged"; "interest charged"; "earned this period"; "cardholder summary"].

(** The body of [for line in lines]: the state is
    [in_transaction_section] and the rows appended so far.  A row is
    [date, description, amount]; [float] raising is the [except: continue]. *)
Definition pdf_line (st : bool * list (list cell)) (line : string) : bool * list (list cell) :=
  let '(in_section, transactions) := st in
  let l := lower line in
  if contains "standard purchases" l || (contains "year to date" l && contains ":" line) then
    (true, transactions)
  else if in_section then
    if existsb (fun x => contains x l) section_end_keywords then (false, transactions)
    else if String.eqb (strip line) EmptyString || contains "date" l || contains "%" line then
      (in_section, transactions)
    else
      match search pdf_pattern line with
      | Some [_; post_date; description; amount_str] =>
          match parse_float (remove_char "," (remove_char "$" (strip amount_str))) with
          | Some (Num q) =>
              (in_section, (transactions ++
                 [[CStr post_date; CStr (strip description); CNum (this (Qcopp (Qcabs q)))]])%list)
          | Some NaN =>
              (in_section, (transactions ++ [[CStr post_date; CStr (strip description); CNaN]])%list)
          | None => (in_section, transactions)
          end
      | _ => (in_section, transactions)
      end
  else (in_section, transactions).

(** What [pdfplumber] gives: the text of each page ([None] for a page
    without text), or the message of the exception raised on opening. *)
Inductive pdf_doc :=
| PdfPages (pages : list (option string))
| PdfUnreadable (msg : string).

(** [for page in pdf.pages: lines = text.split('\n')]; a page without
    text raises [AttributeError] on [None.split]. *)
Fixpoint pdf_pages (st : bool * list (list cell)) (pages : list (option string))
  : result (bool * list (list cell)) :=
  match pages with
  | [] => Ok st
  | None :: _ => Raise (AttributeError "'NoneType' object has no attribute 'split'")
  | Some text :: pages' => pdf_pages (fold_left pdf_line (split_on newline text) st) pages'
  end.

(** [extract_from_pdf]: every exception is re-raised as
    [ValueError(f"Failed to extract PDF: {e}")]. *)
Definition extract_from_pdf (doc : pdf_doc) : result frame :=
  match doc with
  | PdfUnreadable msg => Raise (ValueError ("Failed to extract PDF: " ++ msg))
  | PdfPages pages =>
      match pdf_pages (false, []) pages with
      | Raise _ =>
          Raise (ValueError "Failed to extract PDF: 'NoneType' object has no attribute 'split'")
      | Ok (_, []) => Raise (ValueError "Failed to extract PDF: No transactions found in PDF")
      | Ok (_, transactions) => Ok (mkframe ["date"; "description"; "amount"] transactions)
      end
  end.

(* ================================================================== *)
(** ** Categorizing a column with the rules cache of the email script *)

(** [df["category"] = df["vendor"].apply(categorize_vendor)]: one call
    per row, in order, each seeing the cache the previous call left. *)
Fixpoint categorize_column (fs : Email.rules_files) (cache : option (list Email.rule))
    (vs : list string) : list cell * option (list Email.rule) * list log_line :=
  match vs with
  | [] => ([], cache, [])
  | v :: vs' =>
      let '(c, cache1, log1) := Email.categorize_vendor fs cache v in
      let '(cs, cache2, log2) := categorize_column fs cache1 vs' in
      (c :: cs, cache2, (log1 ++ log2)%list)
  end.

Definition first_match_category (rules : list Email.rule) (v : string) : cell :=
  match find (fun r => Email.rule_matches r (upper v)) rules with
  | Some r => Email.category r
  | None => Email.default_category
  end.

(* ================================================================== *)
(** ** [validate_email] of the email script *)

Definition is_alpha (c : ascii) : bool :=
  let n := nat_of_ascii c in
  ((65 <=? n)%nat && (n <=? 90)%nat) || ((97 <=? n)%nat && (n <=? 122)%nat).

(** [[a-zA-Z0-9._%+-]] *)
Definition local_char (c : ascii) : bool :=
  is_alpha c || is_digit c || Ascii.eqb c "." || Ascii.eqb c "_" || Ascii.eqb c "%"
  || Ascii.eqb c "+" || Ascii.eqb c "-".

(** [[a-zA-Z0-9.-]] *)
Definition domain_char (c : ascii) : bool :=
  is_alpha c || is_digit c || Ascii.eqb c "." || Ascii.eqb c "-".

(** [^[a-zA-Z0-9._%+-]+@[a-zA-Z0-9.-]+\.[a-zA-Z]{2,}] without the
    anchors; [re.match] anchors it at the start. *)
Definition email_pattern : pat :=
  PCat (PPlus true local_char)
    (PCat (PCls (is_char "@"))
      (PCat (PPlus true domain_char)
        (PCat (PCls (is_char "."))
          (PCat (PCls is_alpha) (PPlus true is_alpha))))).

(** [$] without [re.MULTILINE]: the end of the text, or just before a
    newline that ends it. *)
Definition at_end (t : string) : bool :=
  match t with
  | EmptyString => true
  | String c EmptyString => Ascii.eqb c newline
  | _ => false
  end.

Definition validate_email (email : string) : bool :=
  existsb (fun r => at_end (fst r)) (pm email_pattern email).

Definition all_chars (f : ascii -> bool) (w : string) : Prop :=
  forall c, In c (list_ascii_of_string w) -> f c = true.

(* ================================================================== *)
(** ** The loader of the email script *)

Module EmailLoad.

Definition INCOME_TRANSFER_KEYWORDS : list string := [
  "PAYROLL"; "ZELLE PAYMENT FROM"; "TRANSFER";
  "OVERDRAFT PROTECTION"; "DEPOSIT";
  "CREDIT CARD BILL PAYMENT"; "CITI AUTOPAY";
  "AUTOPAY"; "ONLINE BANKING PAYMENT"; "ONLINE PAYMENT";
  "ONLINE BANKING PAYMENT TO CRD";
  "BANK OF AMERICA CREDIT CARD BILL PAYMENT";
  "BA ELECTRONIC PAYMENT"; "FID BKG SVC";
  "BEGINNING BALANCE"; "FORSYTH COUNTY PARKS"].

Definition is_income_or_transfer (desc : option string) : bool :=
  let d := upper (match desc with Some s => s | None => EmptyString end) in
  existsb (fun k => contains k d) INCOME_TRANSFER_KEYWORDS.

(** [df = df[~df["description"].apply(is_income_or_transfer)]]. *)
Definition income_filter (rs : list stage) : result (list stage) :=
  flags <- map_result (fun r => let '(_, d, _) := r in
                                 a <- desc_arg d ;; Ok (is_income_or_transfer a)) rs ;;
  Ok (map fst (filter (fun p => negb (snd p)) (combine rs flags))).

(** A row of [df[["date", "vendor", "category", "amount"]]]: the category
    is whatever cell the matching rule holds. *)
Record txn := mktxn { t_date : cell; t_vendor : string; t_category : cell; t_amount : num }.

(** [filter_to_month], the vendor column, then the category column; the
    rules cache and the warnings of [load_category_rules] are threaded
    through the calls of [categorize_vendor]. *)
Definition finish (tm ty : Z) (fs : Email.rules_files) (cache : option (list Email.rule))
    (rs : list stage) : result (list txn) * option (list Email.rule) * list log_line :=
  match filter_to_month tm ty (fun r : stage => let '(dt, _, _) := r in dt) rs with
  | Raise e => (Raise e, cache, [])
  | Ok kept =>
      match map_result (fun p => let '((_, d, _), _) := p in
                                 arg <- desc_arg d ;; Email.normalize_vendor arg) kept with
      | Raise e => (Raise e, cache, [])
      | Ok vs =>
          let '(cats, cache', log) := categorize_column fs cache vs in
          (Ok (map (fun x => let '((((dt, _, a), _), v), c) := x in mktxn dt v c a)
                   (combine (combine kept vs) cats)), cache', log)
      end
  end.

Definition then_finish (tm ty : Z) (fs : Email.rules_files) (cache : option (list Email.rule))
    (st : result (list stage)) : result (list txn) * option (list Email.rule) * list log_line :=
  match st with
  | Ok st' => finish tm ty fs cache st'
  | Raise e => (Raise e, cache, [])
  end.

(** [load_any_statement] of [report/generate_reports_email.py]: the four
    schemas of the command-line copy, each with the income/transfer
    filter. *)
Definition load_any_statement (tm ty : Z) (fs : Email.rules_files)
    (cache : option (list Email.rule)) (f : stmt_file)
    : result (list txn) * option (list Email.rule) * list log_line :=
  match read_frame f with
  | Raise e => (Raise e, cache, read_frame_log f)
  | Ok fr =>
      let cols := map (fun c => lower (strip c)) (columns fr) in
      let rs := rows fr in
      if existsb (contains "bal") cols && has_col "amount" cols && has_col "description" cols then
        then_finish tm ty fs cache
          (st <- stage_rows cols "date" "description" "amount" rs ;; income_filter st)
      else if has_col "posted date" cols && has_col "payee" cols && has_col "amount" cols then
        then_finish tm ty fs cache
          (st <- stage_rows cols "posted date" "payee" "amount" rs ;; income_filter st)
      else if has_col "credit" cols && has_col "debit" cols && has_col "description" cols
              && has_col "date" cols then
        then_finish tm ty fs cache (st <- credit_debit_rows cols rs ;; income_filter st)
      else if has_col "date" cols && has_col "description" cols && has_col "amount" cols then
        then_finish tm ty fs cache
          (st <- stage_rows cols "date" "description" "amount" rs ;; income_filter st)
      else (Raise (ValueError ("Unrecognized format in file: " ++ path f)), cache, [])
  end.

End EmailLoad.

(* ================================================================== *)
(** ** Sample statement files *)

Definition row1 (d desc amt : string) : list cell := [CStr d; CStr desc; CStr amt].

(** FORMAT 3 (Date, Description, Credit, Debit): a card payment and a purchase. *)
Definition fmt3_with_autopay : stmt_file :=
  mkfile "card_b.csv" (Raise (ValueError "not a pdf"))
    (Ok (mkframe ["Date"; "Description"; "Credit"; "Debit"]
                 [[CStr "01/05/2026"; CStr "AUTOPAY PAYMENT - THANK YOU"; CStr "500.00"; CNaN];
                  [CStr "01/07/2026"; CStr "KROGER #123"; CNaN; CStr "45.67"]]))
    (Raise (ValueError "unused")).

(** The same two rows under FORMAT 4 (Date, Description, Amount). *)
Definition fmt4_with_autopay : stmt_file :=
  mkfile "card_c.csv" (Raise (ValueError "not a pdf"))
    (Ok (mkframe ["Date"; "Description"; "Amount"]
                 [row1 "01/05/2026" "AUTOPAY PAYMENT - THANK YOU" "500.00";
                  row1 "01/07/2026" "KROGER #123" "-45.67"]))
    (Raise (ValueError "unused")).

(** FORMAT 1 (bank statement with a running balance). *)
Definition fmt1_kroger : stmt_file :=
  mkfile "stmt.csv" (Raise (ValueError "not a pdf"))
    (Ok (mkframe ["Date"; "Description"; "Amount"; "Running Bal."]
                 [[CStr "01/15/2026"; CStr "KROGER #123"; CStr "-1,234.56"; CStr "5,000.00"]]))
    (Raise (ValueError "unused")).

(** FORMAT 1 whose only row is the opening balance. *)
Definition fmt1_balance_only : stmt_file :=
  mkfile "stmt_feb.csv" (Raise (ValueError "not a pdf"))
    (Ok (mkframe ["Date"; "Description"; "Amount"; "Running Bal."]
                 [[CStr "02/01/2026"; CStr "Beginning balance as of 02/01/2026"; CNaN; CStr "5,000.00"]]))
    (Raise (ValueError "unused")).

(** FORMAT 1 with one row dated in February. *)
Definition fmt1_february : stmt_file :=
  mkfile "stmt_feb2.csv" (Raise (ValueError "not a pdf"))
    (Ok (mkframe ["Date"; "Description"; "Amount"; "Running Bal."]
                 [[CStr "02/14/2026"; CStr "TACO BELL 123"; CStr "-12.00"; CStr "4,988.00"]]))
    (Raise (ValueError "unused")).

(** A CSV with none of the four layouts. *)
Definition unknown_layout : stmt_file :=
  mkfile "notes.csv" (Raise (ValueError "not a pdf"))
    (Ok (mkframe ["Name"; "Value"] [[CStr "a"; CNum 1]]))
    (Raise (ValueError "unused")).

(** FORMAT 4 with a purchase and a refund. *)
Definition fmt4_refund : stmt_file :=
  mkfile "card_d.csv" (Raise (ValueError "not a pdf"))
    (Ok (mkframe ["Date"; "Description"; "Amount"]
                 [row1 "01/07/2026" "KROGER #123" "-100.00";
                  row1 "01/09/2026" "TARGET 00012 REFUND" "50.00"]))
    (Raise (ValueError "unused")).

(** The transactions handed to the reports, or none when the batch exits. *)
Definition batch_txns (tm ty : Z) (fs : list stmt_file) : list txn :=
  match fst (run_batch tm ty fs) with Proceed all => all | Exit1 => [] end.

(** The percentage as the specification words it: the category total over
    the sum of the absolute category totals (0 when that sum is 0). *)
Definition percent_of_abs_total (total : Qc) (totals : list Qc) : Qc :=
  let g := qsum (map Qcabs totals) in
  if Qeq_bool g 0 then 0%Qc else (Qcabs total / g * Q2Qc 100)%Qc.

(** A [category_rules.csv] with two rules sharing the text KROGER. *)
Definition sample_rule_row (id : string) (prio : Q) (pat cat : string) : Email.csv_row :=
  [("RuleID", CStr id); ("Priority", CNum prio); ("VendorPattern", CStr pat);
   ("Category", CStr cat); ("Explanation", CStr "")].

Definition sample_rules : Email.rules_files :=
  Email.mkfiles (Some (Email.RulesTable
    [sample_rule_row "R1" 5 "Kroger" "Groceries & Markets";
     sample_rule_row "R2" 10 "kroger fuel" "Auto & Gas"])) None.

Definition in_target_month (tm ty : Z) (t : txn) : Prop :=
  exists dt, parse_date_safe ty (cell_to_str (t_date t)) = Some dt /\ month dt = tm /\ year dt = ty.

Definition str_lt (a b : string) : Prop := String.ltb a b = true.

Definition sample_txns : list txn :=
  [mktxn (CStr "01/03/2026") "TARGET" "Shopping & Retail" (Num (Q2Qc (-20)));
   mktxn (CStr "01/04/2026") "KROGER" "Groceries & Markets" (Num (Q2Qc (-30)));
   mktxn (CStr "01/05/2026") "AMAZON" "Shopping & Retail" (Num (Q2Qc (-5)));
   mktxn (CStr "01/06/2026") "TARGET" "Shopping & Retail" NaN].


Definition prio_is (p : Z) (r : Email.rule) : bool := Z.eqb (Email.priority r) p.

Definition tie_rules : Email.rules_files :=
  Email.mkfiles (Some (Email.RulesTable
    [sample_rule_row "R1" 1 "Kroger" "Groceries & Markets";
     sample_rule_row "R2" 5 "kroger" "Groceries & Markets";
     sample_rule_row "R3" 5 "KROGER #" "Auto & Gas"])) None.

(** A posting date [DD/DD]. *)
Definition md_text (d : string) : Prop :=
  exists a b c e, d = String a (String b (String "/" (String c (String e EmptyString)))) /\
    is_digit a = true /\ is_digit b = true /\ is_digit c = true /\ is_digit e = true.

(** A row of the extracted frame: a posting date [DD/DD], the
    description and a non-positive amount. *)
Definition pdf_row_ok (row : list cell) : Prop :=
  exists d desc q, row = [CStr d; CStr desc; CNum q] /\ md_text d /\ (q <= 0)%Q.

(** The number of [/] characters of a text. *)
Fixpoint nslash (s : string) : nat :=
  match s with
  | EmptyString => O
  | String c s' => ((if Ascii.eqb c "/" then 1 else 0) + nslash s')%nat
  end.

Definition kslash (ks : list cls) : nat :=
  fold_right (fun k n => match k with
                         | KChr c => if Ascii.eqb c "/" then S n else n
                         | KRange _ _ => n
                         end) O ks.

Definition dslash (ds : list directive) : nat :=
  fold_right (fun d n => match d with
                         | DSep c => if Ascii.eqb c "/" then S n else n
                         | _ => n
                         end) O ds.

Definition sample_pdf : pdf_doc :=
  PdfPages [Some ("Standard Purchases" ++ String newline EmptyString
                  ++ "01/02  01/03  KROGER #123  $45.10" ++ String newline EmptyString
                  ++ "02/10  02/11  SHELL OIL  $30.00" ++ String newline EmptyString
                  ++ "Fees Charged");
            Some ("01/20  01/21  AMAZON MKTP  $1,200.50")].

Definition sample_pdf_file : stmt_file :=
  mkfile "jan.pdf" (extract_from_pdf sample_pdf) (Raise FileNotFoundError) (Raise FileNotFoundError).

Ltac qc_eval := vm_compute; repeat f_equal; apply Qc_is_canon; vm_compute; reflexivity.

(* ================================================================== *)
(** ** Claims *)

(** C2: in the CLI pipeline ([normalize_vendor], then [categorize_vendor]),
    "KROGER" and "RANDOM VENDOR" get the stated categories, but
    "KROGER FUEL CENTER" gets "Groceries & Markets": the pattern
    [KROGER.*] comes before [KROGER FUEL.*] and matches first, so the
    vendor "KROGER FUEL" of the Auto & Gas set is never produced. *)
Theorem cli_pipeline_kroger_fuel_center :
  (v <- Cli.normalize_vendor (Some "KROGER") ;; Ok (Cli.categorize_vendor v))
    = Ok "Groceries & Markets" /\
  (v <- Cli.normalize_vendor (Some "KROGER FUEL CENTER") ;; Ok (Cli.categorize_vendor v))
    = Ok "Groceries & Markets" /\
  (v <- Cli.normalize_vendor (Some "RANDOM VENDOR") ;; Ok (Cli.categorize_vendor v))
    = Ok "Shopping & Retail" /\
  Cli.categorize_vendor "KROGER FUEL" = "Auto & Gas".
Proof. vm_compute. repeat split. Qed.

(** C3: the CLI loader's FORMAT 3 (credit/debit) keeps a row whose
    description contains the income/transfer keyword "AUTOPAY", while
    FORMAT 4 drops the same row; the email copy of the loader filters
    FORMAT 3 as well. *)
Theorem cli_format3_skips_income_filter :
  load_any_statement 1 2026 fmt3_with_autopay =
    Ok [mktxn (CStr "01/05/2026") "AUTOPAY" "Shopping & Retail" (Num (Q2Qc 500));
        mktxn (CStr "01/07/2026") "KROGER" "Groceries & Markets" (Num (Q2Qc (-(4567 # 100))))] /\
  Cli.is_income_or_transfer (Some "AUTOPAY PAYMENT - THANK YOU") = true /\
  load_any_statement 1 2026 fmt4_with_autopay =
    Ok [mktxn (CStr "01/07/2026") "KROGER" "Groceries & Markets" (Num (Q2Qc (-(4567 # 100))))].
Proof. split; [qc_eval | split; [vm_compute; reflexivity | qc_eval]]. Qed.

(** C5: a non-empty description made only of whitespace matches no
    pattern and has no first token: [d.split()[0]] raises [IndexError]
    in both copies of [normalize_vendor] (the [if d] guard covers only
    the empty string). *)
Theorem normalize_vendor_whitespace_raises :
  Cli.normalize_vendor (Some " ") = Raise IndexError /\
  Email.normalize_vendor (Some " ") = Raise IndexError /\
  Cli.normalize_vendor (Some "") = Ok "" /\
  Cli.normalize_vendor None = Ok "".
Proof. vm_compute. repeat split. Qed.

(** C8: [02/14/2026] is kept for 02/2026 and dropped for 01/2026, but
    the year-less [02/29] is discarded for target 02/2024 ([strptime]
    builds 1900-02-29, which does not exist, before the year could be
    replaced), and an explicit year 1900 is replaced by the target year. *)
Theorem parse_date_safe_leap_day_and_1900 :
  parse_date_safe 2026 "02/14/2026" = Some (mkdt 2026 2 14) /\
  filter_to_month 2 2026 (fun c => c) [CStr "02/14/2026"]
    = Ok [(CStr "02/14/2026", mkdt 2026 2 14)] /\
  filter_to_month 1 2026 (fun c => c) [CStr "02/14/2026"] = Ok [] /\
  parse_date_safe 2024 "02/29" = None /\
  filter_to_month 2 2024 (fun c => c) [CStr "02/29"; CStr "02/28"]
    = Ok [(CStr "02/28", mkdt 2024 2 28)] /\
  parse_date_safe 2026 "01/15/1900" = Some (mkdt 2026 1 15).
Proof. vm_compute. repeat split. Qed.

(** C9: the amount text "1,234.56" is read as 1234.56 (commas
    stripped), and a credit/debit row with credit 0 and debit 50 has
    amount -50, both for the helpers and through the loader. *)
Theorem amounts_parse_exactly :
  amount_of_cell (CStr "1,234.56") = Ok (Num (Q2Qc (123456 # 100))) /\
  credit_debit_amount (CNum 0) (CNum 50) = Num (Q2Qc (-50)) /\
  credit_debit_amount (CStr "0") (CStr "50") = Num (Q2Qc (-50)) /\
  load_any_statement 1 2026 fmt1_kroger =
    Ok [mktxn (CStr "01/15/2026") "KROGER" "Groceries & Markets" (Num (Q2Qc (-(123456 # 100))))].
Proof.
  split; [qc_eval |].
  split; [qc_eval |].
  split; [qc_eval | qc_eval].
Qed.

(* ================================================================== *)
(** ** Sums *)

Lemma qsum_app : forall l1 l2, qsum (l1 ++ l2) = (qsum l1 + qsum l2)%Qc.
Proof.
  induction l1 as [|x l1 IH]; intros l2; simpl.
  - now rewrite Qcplus_0_l.
  - now rewrite IH, Qcplus_assoc.
Qed.

Lemma qsum_perm : forall l1 l2, Permutation l1 l2 -> qsum l1 = qsum l2.
Proof.
  induction 1; simpl; try congruence.
  rewrite !Qcplus_assoc, (Qcplus_comm y x). reflexivity.
Qed.

Lemma pandas_sum_app : forall l1 l2,
  pandas_sum (l1 ++ l2) = (pandas_sum l1 + pandas_sum l2)%Qc.
Proof. intros. unfold pandas_sum. now rewrite flat_map_app, qsum_app. Qed.

Lemma pandas_sum_perm : forall l1 l2, Permutation l1 l2 -> pandas_sum l1 = pandas_sum l2.
Proof.
  intros l1 l2 HP. unfold pandas_sum. apply qsum_perm.
  induction HP; simpl; auto.
  - now apply Permutation_app_head.
  - rewrite !app_assoc. apply Permutation_app_tail, Permutation_app_comm.
  - now transitivity (flat_map (fun n => match n with Num q => [q] | NaN => [] end) l').
Qed.

Lemma pandas_sum_flat_map {A} (f : A -> list txn) (l : list A) :
  pandas_sum (map t_amount (flat_map f l)) = qsum (map (fun a => pandas_sum (map t_amount (f a))) l).
Proof.
  induction l as [|a l IH]; simpl; [reflexivity|].
  now rewrite map_app, pandas_sum_app, IH.
Qed.

(** A transaction whose category is one of [category_order] is among the
    rows of its category, which then have a section in Report 1 built from
    them and a row in Report 2. *)
Lemma category_rows_reported : forall txns t,
  In t txns -> In (t_category t) category_order ->
  In t (cat_rows (t_category t) txns) /\
  (exists vt total, In (t_category t, vt, total) (report1_sections txns) /\
     vt = vendor_totals (cat_rows (t_category t) txns)) /\
  In (t_category t) (map fst (cat_totals txns)).
Proof.
  intros txns t Ht Hc.
  assert (Hr : In t (cat_rows (t_category t) txns)).
  { unfold cat_rows. apply filter_In. split; [exact Ht | apply String.eqb_refl]. }
  split; [exact Hr|]. split.
  - unfold report1_sections.
    destruct (cat_rows (t_category t) txns) as [|r rs] eqn:E; [destruct Hr|].
    exists (vendor_totals (r :: rs)), (qsum (map snd (vendor_totals (r :: rs)))).
    split; [|reflexivity].
    apply in_flat_map. exists (t_category t). split; [exact Hc|].
    rewrite E. left. reflexivity.
  - unfold cat_totals. apply in_map_iff.
    destruct (cat_rows (t_category t) txns) as [|r rs] eqn:E; [destruct Hr|].
    exists (t_category t, pandas_sum (map t_amount (r :: rs))). split; [reflexivity|].
    apply in_flat_map. exists (t_category t). split; [exact Hc|].
    rewrite E. left. reflexivity.
Qed.

(* ================================================================== *)
(** ** Loader and batch facts *)

Lemma bind_ok {A B} (m : result A) (k : A -> result B) b :
  bind m k = Ok b -> exists a, m = Ok a /\ k a = Ok b.
Proof. destruct m; simpl; [eauto | discriminate]. Qed.

Lemma map_result_in {A B} (f : A -> result B) xs ys :
  map_result f xs = Ok ys -> forall y, In y ys -> exists x, In x xs /\ f x = Ok y.
Proof.
  revert ys; induction xs as [|x xs IH]; simpl; intros ys H y Hy.
  - injection H as <-. destruct Hy.
  - apply bind_ok in H as [y0 [Hy0 H]]. apply bind_ok in H as [ys0 [Hys0 H]].
    injection H as <-. destruct Hy as [<- | Hy].
    + eauto.
    + destruct (IH ys0 Hys0 y Hy) as [x' [Hx' Hf]]. eauto.
Qed.

Lemma finish_categories : forall tm ty st df,
  finish tm ty st = Ok df ->
  forall t, In t df -> t_category t = Cli.categorize_vendor (t_vendor t).
Proof.
  intros tm ty st df H t Ht. unfold finish in H.
  apply bind_ok in H as [kept [_ H]].
  destruct (map_result_in _ _ _ H t Ht) as [[[[dt d] a] p] [_ Hg]].
  apply bind_ok in Hg as [arg [_ Hg]]. apply bind_ok in Hg as [v [_ Hg]].
  injection Hg as <-. reflexivity.
Qed.

Ltac crush_load H :=
  repeat (cbv beta zeta in H;
    match type of H with
    | (if ?b then _ else _) = _ => destruct b
    | bind ?m ?k = Ok _ => apply bind_ok in H; destruct H as [? [? H]]
    | finish _ _ _ = Ok _ => idtac
    | Raise _ = Ok _ => discriminate
    end).

(** Every row the CLI loader returns carries the category of its vendor. *)
Lemma load_any_statement_categories : forall tm ty f df,
  load_any_statement tm ty f = Ok df ->
  forall t, In t df -> t_category t = Cli.categorize_vendor (t_vendor t).
Proof.
  intros tm ty f df H. unfold load_any_statement in H.
  crush_load H; eapply finish_categories; exact H.
Qed.

(** The batch keeps, in order, the tables of the files that loaded. *)
Lemma load_files_tables : forall tm ty fs,
  fst (load_files tm ty fs) =
  flat_map (fun f => match load_any_statement tm ty f with
                     | Ok df => [df]
                     | Raise _ => []
                     end) fs.
Proof.
  intros tm ty fs. induction fs as [|f fs IH]; [reflexivity|].
  simpl. destruct (load_files tm ty fs) as [dfs log]. simpl in IH.
  destruct (load_any_statement tm ty f); simpl; congruence.
Qed.

Lemma run_batch_categories : forall tm ty fs all log,
  run_batch tm ty fs = (Proceed all, log) ->
  forall t, In t all -> t_category t = Cli.categorize_vendor (t_vendor t).
Proof.
  intros tm ty fs all log H t Ht. unfold run_batch in H.
  pose proof (load_files_tables tm ty fs) as HT.
  destruct (load_files tm ty fs) as [dfs log0]. simpl in HT.
  destruct dfs as [|df dfs]; [discriminate|].
  injection H as Hall _. subst all.
  change (df ++ concat dfs)%list with (concat (df :: dfs)) in Ht. rewrite HT in Ht.
  apply in_concat in Ht as [d [Hd Ht]]. subst.
  apply in_flat_map in Hd as [f [_ Hf]].
  destruct (load_any_statement tm ty f) eqn:E; [|destruct Hf].
  destruct Hf as [<-|[]]. eapply load_any_statement_categories; eauto.
Qed.

(* ================================================================== *)
(** ** Category partition *)

Lemma categorize_vendor_in_order : forall v, In (Cli.categorize_vendor v) category_order.
Proof.
  intros v. unfold Cli.categorize_vendor.
  repeat match goal with |- context [if ?b then _ else _] => destruct b end;
  simpl; tauto.
Qed.

Lemma category_order_nodup : NoDup category_order.
Proof.
  unfold category_order.
  repeat (apply NoDup_cons; [simpl; intuition discriminate|]). apply NoDup_nil.
Qed.

Lemma filter_eqb_nodup : forall a l,
  NoDup l -> In a l -> length (filter (String.eqb a) l) = 1%nat.
Proof.
  intros a l Hnd Hin. induction Hnd as [|x l Hx Hnd IH]; [destruct Hin|].
  simpl. destruct (String.eqb_spec a x) as [<-|Hne].
  - simpl. f_equal.
    assert (Hnil : forall l', ~ In a l' -> filter (String.eqb a) l' = []).
    { induction l' as [|y l' IHl]; simpl; intros Hn; [reflexivity|].
      destruct (String.eqb_spec a y); [subst; tauto|]. apply IHl. tauto. }
    now rewrite Hnil.
  - apply IH. destruct Hin as [->|]; [contradiction|assumption].
Qed.

Lemma flat_map_insert_once {A B} (F : A -> list B) (p : A -> bool) (x : B) (l : list A) :
  length (filter p l) = 1%nat ->
  Permutation (flat_map (fun c => if p c then x :: F c else F c) l) (x :: flat_map F l).
Proof.
  induction l as [|c l IH]; simpl; intros H; [discriminate|].
  destruct (p c) eqn:Ep.
  - simpl in H. injection H as H.
    assert (Hrest : flat_map (fun c => if p c then x :: F c else F c) l = flat_map F l).
    { clear IH. induction l as [|c' l IHl]; simpl in *; [reflexivity|].
      destruct (p c'); [discriminate|]. now rewrite IHl. }
    rewrite Hrest. reflexivity.
  - rewrite (IH H). apply Permutation_sym, Permutation_middle.
Qed.

Lemma cat_rows_partition : forall txns,
  (forall t, In t txns -> In (t_category t) category_order) ->
  Permutation (flat_map (fun cat => cat_rows cat txns) category_order) txns.
Proof.
  induction txns as [|t txns IH]; intros Hall.
  - unfold cat_rows; simpl. induction category_order; simpl; auto.
  - assert (Hc : forall cat, cat_rows cat (t :: txns) =
              if String.eqb (t_category t) cat then t :: cat_rows cat txns
              else cat_rows cat txns) by reflexivity.
    rewrite (flat_map_ext _ _ Hc).
    transitivity (t :: flat_map (fun cat => cat_rows cat txns) category_order).
    + apply (flat_map_insert_once (fun cat => cat_rows cat txns)
               (fun cat => String.eqb (t_category t) cat) t).
      apply filter_eqb_nodup; [apply category_order_nodup | apply Hall; left; reflexivity].
    + constructor. apply IH. intros t' Ht'. apply Hall. right. exact Ht'.
Qed.

(** C10: the hard-coded classifier only returns the eight labels of
    [category_order]; so every transaction loaded by the batch lies in
    exactly one category of the order, the category sections together are
    a rearrangement of all transactions, and each transaction is among the
    rows of its category, from which both its Report 1 section and its
    Report 2 row (one of the totals added into the grand total) are built. *)
Theorem cli_categories_partition_reports : forall tm ty fs all log,
  run_batch tm ty fs = (Proceed all, log) ->
  (forall v, In (Cli.categorize_vendor v) category_order) /\
  (forall t, In t all ->
     length (filter (fun cat => String.eqb (t_category t) cat) category_order) = 1%nat) /\
  Permutation (flat_map (fun cat => cat_rows cat all) category_order) all /\
  (forall t, In t all ->
     In t (cat_rows (t_category t) all) /\
     (exists vt total, In (t_category t, vt, total) (report1_sections all) /\
        vt = vendor_totals (cat_rows (t_category t) all)) /\
     In (t_category t) (map fst (cat_totals all))).
Proof.
  intros tm ty fs all log H.
  assert (Hin : forall t, In t all -> In (t_category t) category_order).
  { intros t Ht. rewrite (run_batch_categories _ _ _ _ _ H t Ht).
    apply categorize_vendor_in_order. }
  split; [exact categorize_vendor_in_order|].
  split; [intros t Ht; apply filter_eqb_nodup; [apply category_order_nodup | auto]|].
  split; [exact (cat_rows_partition all Hin)|].
  intros t Ht. apply category_rows_reported; auto.
Qed.

Lemma cli_categories_partition_reports_witness :
  match run_batch 1 2026 [fmt1_kroger; fmt3_with_autopay; unknown_layout] with
  | (Proceed all, _) =>
      (forall v, In (Cli.categorize_vendor v) category_order) /\
      (forall t, In t all ->
         length (filter (fun cat => String.eqb (t_category t) cat) category_order) = 1%nat) /\
      Permutation (flat_map (fun cat => cat_rows cat all) category_order) all /\
      (forall t, In t all ->
         In t (cat_rows (t_category t) all) /\
         (exists vt total, In (t_category t, vt, total) (report1_sections all) /\
            vt = vendor_totals (cat_rows (t_category t) all)) /\
         In (t_category t) (map fst (cat_totals all)))
  | (Exit1, _) => False
  end.
Proof.
  destruct (run_batch 1 2026 [fmt1_kroger; fmt3_with_autopay; unknown_layout]) as [o log] eqn:E.
  destruct o as [|all].
  - vm_compute in E. discriminate.
  - exact (cli_categories_partition_reports 1 2026 _ all log E).
Defined.

(* ================================================================== *)
(** ** Report 2 percentages *)

(** C4: on a month with a 100.00 purchase at KROGER and a 50.00 refund at
    TARGET, Report 2 prints 200% for Groceries & Markets and 100% for
    Shopping & Retail: the code divides by the absolute value of the signed
    sum of the category totals (here 50), not by the sum of their absolute
    values (150), which would give 66.67% and 33.33%. *)
Theorem report2_percent_signed_grand_total :
  report2_rows (batch_txns 1 2026 [fmt4_refund]) =
    [("Groceries & Markets", Q2Qc (-100)%Q, Q2Qc 200%Q);
     ("Shopping & Retail", Q2Qc 50%Q, Q2Qc 100%Q)] /\
  map (fun ct => percent_of_abs_total (snd ct) (map snd (cat_totals (batch_txns 1 2026 [fmt4_refund]))))
      (cat_totals (batch_txns 1 2026 [fmt4_refund])) =
    [Q2Qc (200 # 3)%Q; Q2Qc (100 # 3)%Q].
Proof. split; qc_eval. Qed.

(* ================================================================== *)
(** ** Missing or unreadable rules file *)

(** C6: when reading or converting the rules file raises (no file in the
    working directory nor next to the script, a parser error, a missing
    column, a non-integer priority, ...), [load_category_rules] returns the
    empty list with one warning and leaves the cache empty, and
    [categorize_vendor] returns the default category for every vendor with
    that warning; no exception reaches the caller, and the next call starts
    from the same empty cache. *)
Theorem email_rules_failure_defaults : forall fs e,
  Email.rules_of_file fs = Raise e ->
  Email.load_category_rules fs None = ([], None, [Warning e]) /\
  forall vendor,
    Email.categorize_vendor fs None vendor = (Email.default_category, None, [Warning e]).
Proof.
  intros fs e H. unfold Email.categorize_vendor, Email.load_category_rules.
  rewrite H. split; reflexivity.
Qed.

Lemma email_rules_failure_defaults_witness :
  Email.rules_of_file (Email.mkfiles None None) = Raise FileNotFoundError /\
  Email.categorize_vendor (Email.mkfiles None None) None "kroger #123" =
    (Email.default_category, None, [Warning FileNotFoundError]).
Proof.
  assert (H : Email.rules_of_file (Email.mkfiles None None) = Raise FileNotFoundError)
    by reflexivity.
  split; [exact H|].
  exact (proj2 (email_rules_failure_defaults _ _ H) "kroger #123").
Defined.

(* ================================================================== *)
(** ** Per-file failures in the batch *)

(** C7: a file whose layout matches no schema raises a ValueError naming
    the file and is skipped while the batch goes on; but a file left with
    no row by the income filter (here a FORMAT 1 statement holding only the
    opening balance) also raises, because [filter_to_month] applies [.dt]
    to an empty column of objects: it is reported as skipped, and when it
    is the only file the batch exits. A file whose rows parse but fall in
    another month loads with 0 transactions. *)
Theorem batch_zero_row_file_raises :
  load_any_statement 2 2026 fmt1_balance_only =
    Raise (AttributeError "Can only use .dt accessor with datetimelike values") /\
  run_batch 2 2026 [fmt1_balance_only] =
    (Exit1, [Processing "stmt_feb.csv";
             Skipping (AttributeError "Can only use .dt accessor with datetimelike values")]) /\
  run_batch 1 2026 [fmt1_february] = (Proceed [], [Processing "stmt_feb2.csv"; Loaded 0]) /\
  snd (run_batch 2 2026 [unknown_layout; fmt1_balance_only; fmt1_february]) =
    [Processing "notes.csv"; Skipping (ValueError "Unrecognized format in file: notes.csv");
     Processing "stmt_feb.csv";
     Skipping (AttributeError "Can only use .dt accessor with datetimelike values");
     Processing "stmt_feb2.csv"; Loaded 1].
Proof. repeat split; vm_compute; reflexivity. Qed.

(* ================================================================== *)
(** ** The compiled rule pattern [.*ESCAPED.*] *)

Lemma parse_escaped_char : forall c s acc brs,
  parse_branches (re_escape (String c EmptyString) ++ s) acc brs =
  parse_branches s (RChr c :: acc) brs.
Proof.
  intros [[] [] [] [] [] [] [] []] s acc brs; reflexivity.
Qed.

Lemma re_escape_cons : forall c p,
  re_escape (String c p) = (re_escape (String c EmptyString) ++ re_escape p)%string.
Proof.
  intros c p. simpl.
  match goal with |- context [if ?b then _ else _] => destruct b end; reflexivity.
Qed.

Lemma string_app_assoc : forall a b c : string, ((a ++ b) ++ c = a ++ (b ++ c))%string.
Proof. induction a as [|x a IH]; intros; simpl; [reflexivity | now rewrite IH]. Qed.

Lemma parse_escaped : forall p s acc brs,
  parse_branches (re_escape p ++ s) acc brs =
  parse_branches s (rev (map RChr (list_ascii_of_string p)) ++ acc)%list brs.
Proof.
  induction p as [|c p IH]; intros s acc brs; [reflexivity|].
  rewrite re_escape_cons, string_app_assoc, parse_escaped_char, IH.
  simpl. now rewrite <- app_assoc.
Qed.

Lemma compile_rule_pattern : forall p,
  compile (".*" ++ re_escape p ++ ".*") =
  seq_of ([RStar RAny] ++ map RChr (list_ascii_of_string p) ++ [RStar RAny])%list.
Proof.
  intros p. unfold compile.
  change (".*" ++ re_escape p ++ ".*")%string
    with (String "." (String "*" (re_escape p ++ ".*")))%string.
  cbn [parse_branches postfix]. rewrite parse_escaped.
  cbn [parse_branches postfix].
  replace (rev (RStar RAny :: rev (map RChr (list_ascii_of_string p)) ++ [RStar RAny]))%list
    with ([RStar RAny] ++ map RChr (list_ascii_of_string p) ++ [RStar RAny])%list.
  - reflexivity.
  - cbn [rev]. rewrite rev_app_distr, rev_involutive. reflexivity.
Qed.

Lemma length_string_app : forall a b : string,
  String.length (a ++ b) = (String.length a + String.length b)%nat.
Proof. induction a as [|c a IH]; intros b; simpl; [reflexivity | now rewrite IH]. Qed.

Fixpoint seq_rests (l : list regex) (s : string) : list string :=
  match l with
  | [] => [s]
  | a :: l' => flat_map (seq_rests l') (rests a s)
  end.

Lemma flat_map_singleton {A} (l : list A) : flat_map (fun x => [x]) l = l.
Proof. induction l; simpl; congruence. Qed.

Lemma rests_seq_of : forall l s, rests (seq_of l) s = seq_rests l s.
Proof.
  induction l as [|a l IH]; intros s; [reflexivity|].
  destruct l as [|b l].
  - simpl. now rewrite flat_map_singleton.
  - change (seq_of (a :: b :: l)) with (RSeq a (seq_of (b :: l))).
    simpl rests at 1. apply flat_map_ext. exact IH.
Qed.

Lemma seq_rests_app : forall l1 l2 s t,
  In t (seq_rests (l1 ++ l2) s) <-> exists u, In u (seq_rests l1 s) /\ In t (seq_rests l2 u).
Proof.
  induction l1 as [|a l1 IH]; intros l2 s t; simpl.
  - split; [intros H; exists s; auto | intros [u [[<-|[]] H]]; exact H].
  - rewrite in_flat_map. split.
    + intros [x [Hx Ht]]. apply IH in Ht as [u [Hu Ht]].
      exists u. split; [apply in_flat_map; eauto | exact Ht].
    + intros [u [Hu Ht]]. apply in_flat_map in Hu as [x [Hx Hu]].
      exists x. split; [exact Hx | apply IH; eauto].
Qed.

Lemma seq_rests_chars : forall p s t,
  In t (seq_rests (map RChr (list_ascii_of_string p)) s) <-> s = (p ++ t)%string.
Proof.
  induction p as [|c p IH]; intros s t; simpl.
  - split; [intros [<-|[]]; reflexivity | intros ->; left; reflexivity].
  - rewrite in_flat_map. split.
    + intros [x [Hx Ht]]. destruct s as [|c' s]; [destruct Hx|].
      destruct (Ascii.eqb_spec c c') as [<-|]; [|destruct Hx].
      destruct Hx as [<-|[]]. apply IH in Ht. now subst.
    + intros ->. exists (p ++ t)%string. split.
      * rewrite Ascii.eqb_refl. left; reflexivity.
      * apply IH. reflexivity.
Qed.

Definition no_newline (s : string) : Prop := ~ In newline (list_ascii_of_string s).

Lemma star_any_complete : forall pre t n,
  (String.length pre <= n)%nat -> no_newline pre ->
  In t (star_rests (rests RAny) n (pre ++ t)%string).
Proof.
  induction pre as [|c pre IH]; intros t n Hn Hnl.
  - destruct n; simpl; left; reflexivity.
  - destruct n as [|n]; [simpl in Hn; lia|].
    simpl. right. apply in_flat_map. exists (pre ++ t)%string.
    assert (Hc : Ascii.eqb c newline = false).
    { destruct (Ascii.eqb_spec c newline); [|reflexivity].
      exfalso. apply Hnl. left. now symmetry. }
    rewrite Hc. split; [left; reflexivity|].
    assert (Hlt : (String.length (pre ++ t) <? S (String.length (pre ++ t)))%nat = true)
      by (apply Nat.ltb_lt; lia).
    rewrite Hlt. apply IH; [simpl in Hn; lia|].
    intros H. apply Hnl. right. exact H.
Qed.

Lemma star_any_sound : forall n s t,
  In t (star_rests (rests RAny) n s) -> exists pre, s = (pre ++ t)%string /\ no_newline pre.
Proof.
  induction n as [|n IH]; intros s t H.
  - destruct H as [<-|[]]. exists EmptyString. split; [reflexivity | intros []].
  - destruct H as [<-|H].
    + exists EmptyString. split; [reflexivity | intros []].
    + apply in_flat_map in H as [x [Hx Ht]].
      destruct s as [|c s]; [destruct Hx|].
      simpl in Hx. destruct (Ascii.eqb_spec c newline) as [|Hc]; [destruct Hx|].
      destruct Hx as [<-|[]].
      destruct (String.length s <? String.length (String c s))%nat; [|destruct Ht].
      apply IH in Ht as [pre [-> Hpre]].
      exists (String c pre). split; [reflexivity|].
      intros [Heq|Hin]; [now apply Hc | exact (Hpre Hin)].
Qed.

(** [re.match(".*" + re.escape(p) + ".*", v)] holds exactly when [p]
    occurs in [v] after a prefix without a newline. *)
Lemma rule_pattern_match : forall p v,
  re_match (compile (".*" ++ re_escape p ++ ".*")) v = true <->
  exists pre post, v = (pre ++ p ++ post)%string /\ no_newline pre.
Proof.
  intros p v. unfold re_match. rewrite compile_rule_pattern, rests_seq_of.
  split.
  - destruct (seq_rests _ v) as [|t rs] eqn:E; [discriminate|]. intros _.
    assert (Ht : In t (seq_rests ([RStar RAny] ++ map RChr (list_ascii_of_string p) ++ [RStar RAny]) v))
      by (rewrite E; left; reflexivity).
    apply seq_rests_app in Ht as [u [Hu Ht]].
    apply seq_rests_app in Ht as [w [Hw _]].
    cbn [seq_rests] in Hu. rewrite flat_map_singleton in Hu.
    apply star_any_sound in Hu as [pre [-> Hpre]].
    apply seq_rests_chars in Hw as ->.
    exists pre, w. split; [reflexivity | exact Hpre].
  - intros [pre [post [-> Hpre]]].
    assert (Hin : In post (seq_rests ([RStar RAny] ++ map RChr (list_ascii_of_string p) ++ [RStar RAny]) (pre ++ p ++ post)%string)).
    { apply seq_rests_app. exists (p ++ post)%string. split.
      - cbn [seq_rests]. rewrite flat_map_singleton. apply star_any_complete; [|exact Hpre].
        rewrite !length_string_app. lia.
      - apply seq_rests_app. exists post. split; [now apply seq_rests_chars|].
        cbn [seq_rests]. rewrite flat_map_singleton. simpl.
        destruct (String.length post); left; reflexivity. }
    destruct (seq_rests _ _); [destruct Hin | reflexivity].
Qed.

(* ================================================================== *)
(** ** Rule order *)

Definition prio_desc (a b : Email.rule) : Prop := (Email.priority b <= Email.priority a)%Z.

Lemma insert_rule_perm : forall r l, Permutation (Email.insert_rule r l) (r :: l).
Proof.
  intros r l. induction l as [|x l IH]; simpl; [reflexivity|].
  destruct (Email.priority r <=? Email.priority x)%Z; [|reflexivity].
  rewrite IH. apply perm_swap.
Qed.

Lemma sort_rules_perm : forall rs, Permutation (Email.sort_rules rs) rs.
Proof.
  intros rs. unfold Email.sort_rules.
  assert (H : forall acc, Permutation (fold_left (fun acc r => Email.insert_rule r acc) rs acc) (rs ++ acc)).
  { induction rs as [|r rs IH]; intros acc; simpl; [reflexivity|].
    rewrite IH, insert_rule_perm. apply Permutation_sym, Permutation_middle. }
  rewrite H, app_nil_r. reflexivity.
Qed.

Lemma insert_rule_sorted : forall r l, Sorted prio_desc l -> Sorted prio_desc (Email.insert_rule r l).
Proof.
  intros r l. induction l as [|x l IH]; intros Hs; simpl.
  - repeat constructor.
  - apply Sorted_inv in Hs as [Hl Hhd].
    destruct (Email.priority r <=? Email.priority x)%Z eqn:E.
    + apply Z.leb_le in E. constructor; [now apply IH|].
      destruct l as [|y l]; simpl; [constructor; exact E|].
      destruct (Email.priority r <=? Email.priority y)%Z; constructor; [|exact E].
      now inversion Hhd.
    + apply Z.leb_gt in E. constructor; [constructor; assumption|].
      constructor. unfold prio_desc. lia.
Qed.

Lemma sort_rules_sorted : forall rs, Sorted prio_desc (Email.sort_rules rs).
Proof.
  intros rs. unfold Email.sort_rules.
  assert (H : forall acc, Sorted prio_desc acc ->
              Sorted prio_desc (fold_left (fun acc r => Email.insert_rule r acc) rs acc)).
  { induction rs as [|r rs IH]; intros acc Hacc; simpl; [exact Hacc|].
    apply IH, insert_rule_sorted, Hacc. }
  apply H. constructor.
Qed.

Lemma find_sorted_max : forall (f : Email.rule -> bool) l r,
  Sorted prio_desc l -> find f l = Some r ->
  forall r', In r' l -> f r' = true -> (Email.priority r' <= Email.priority r)%Z.
Proof.
  intros f l r Hs. apply Sorted_StronglySorted in Hs;
    [|intros a b c Hab Hbc; unfold prio_desc in *; lia].
  induction Hs as [|x l Hl IH Hx]; intros Hf r' Hin Hr'; [destruct Hin|].
  simpl in Hf. destruct (f x) eqn:Efx.
  - injection Hf as <-. destruct Hin as [<-|Hin]; [lia|].
    rewrite Forall_forall in Hx. exact (Hx r' Hin).
  - destruct Hin as [<-|Hin]; [congruence|]. exact (IH Hf r' Hin Hr').
Qed.

(** C1: with the rules read from the file, [categorize_vendor] scans the
    rules sorted by descending priority (a rearrangement of the file's
    rules) and returns the category of the first one whose pattern
    matches the upper-cased vendor, where a pattern matches when it occurs
    in the vendor after a prefix holding no newline (the regex
    [.*ESCAPED.*]); with no matching rule it returns "Shopping & Retail",
    and otherwise the returned category is that of a matching rule of
    highest priority. *)
Theorem email_categorize_first_match_by_priority : forall fs raw vendor,
  Email.rules_of_file fs = Ok raw ->
  let v := upper vendor in
  let c := fst (fst (Email.categorize_vendor fs None vendor)) in
  Sorted prio_desc (Email.sort_rules raw) /\
  Permutation (Email.sort_rules raw) raw /\
  c = match find (fun r => Email.rule_matches r v) (Email.sort_rules raw) with
      | Some r => Email.category r
      | None => Email.default_category
      end /\
  (forall r, Email.rule_matches r v = true <->
     exists pre post, v = (pre ++ Email.vendor_pattern r ++ post)%string /\ no_newline pre) /\
  ((forall r, In r raw -> Email.rule_matches r v = false) -> c = Email.default_category) /\
  (forall r, In r raw -> Email.rule_matches r v = true ->
     exists r0, In r0 raw /\ Email.rule_matches r0 v = true /\ c = Email.category r0 /\
       forall r', In r' raw -> Email.rule_matches r' v = true ->
                  (Email.priority r' <= Email.priority r0)%Z).
Proof.
  intros fs raw vendor H v c.
  assert (Hc : c = match find (fun r => Email.rule_matches r v) (Email.sort_rules raw) with
                   | Some r => Email.category r
                   | None => Email.default_category
                   end).
  { subst c v. unfold Email.categorize_vendor, Email.load_category_rules. rewrite H.
    reflexivity. }
  pose proof (sort_rules_perm raw) as HP.
  pose proof (sort_rules_sorted raw) as HS.
  split; [exact HS|]. split; [exact HP|]. split; [exact Hc|].
  split; [intros r; apply rule_pattern_match|].
  split.
  - intros Hnone. rewrite Hc.
    destruct (find _ _) as [r|] eqn:E; [|reflexivity].
    apply find_some in E as [Hin E].
    rewrite (Hnone r (Permutation_in _ HP Hin)) in E. discriminate.
  - intros r Hin Hr. rewrite Hc.
    destruct (find _ _) as [r0|] eqn:E.
    + exists r0. pose proof E as E'. apply find_some in E' as [Hin0 Hm0].
      split; [exact (Permutation_in _ HP Hin0)|]. split; [exact Hm0|].
      split; [reflexivity|].
      intros r' Hin' Hm'. apply (find_sorted_max _ _ _ HS E r'); [|exact Hm'].
      exact (Permutation_in _ (Permutation_sym HP) Hin').
    + exfalso. pose proof (find_none _ _ E r (Permutation_in _ (Permutation_sym HP) Hin)).
      congruence.
Qed.

Lemma email_categorize_first_match_by_priority_witness :
  exists raw, Email.rules_of_file sample_rules = Ok raw /\
  fst (fst (Email.categorize_vendor sample_rules None "Kroger Fuel Center #5")) = CStr "Auto & Gas" /\
  forall r', In r' raw -> Email.rule_matches r' (upper "Kroger Fuel Center #5") = true ->
             (Email.priority r' <= 10)%Z.
Proof.
  eexists. split; [reflexivity|].
  match goal with |- _ /\ forall r', In r' ?raw -> _ =>
    assert (H : Email.rules_of_file sample_rules = Ok raw) by (vm_compute; reflexivity) end.
  pose proof (email_categorize_first_match_by_priority sample_rules _ "Kroger Fuel Center #5" H)
    as (_ & _ & _ & _ & _ & Hmax).
  assert (Hc : fst (fst (Email.categorize_vendor sample_rules None "Kroger Fuel Center #5"))
               = CStr "Auto & Gas") by (vm_compute; reflexivity).
  split; [exact Hc|].
  destruct (Hmax _ (or_introl eq_refl) ltac:(vm_compute; reflexivity))
    as (r0 & Hin0 & _ & Hcat & Hle).
  intros r' Hin' Hm'. specialize (Hle r' Hin' Hm').
  rewrite Hc in Hcat.
  destruct Hin0 as [<-|[<-|[]]]; simpl in Hcat, Hle; [discriminate Hcat | exact Hle].
Defined.

(* ================================================================== *)
(** * Further properties of the code *)

(** ** Dates of the loaded transactions *)

Lemma mk_datetime_valid : forall y m d dt,
  mk_datetime y m d = Ok dt ->
  dt = mkdt y m d /\ (1 <= y <= 9999)%Z /\ (1 <= m <= 12)%Z /\ (1 <= d <= days_in_month y m)%Z.
Proof.
  intros y m d dt H. unfold mk_datetime in H.
  destruct ((1 <=? y)%Z && (y <=? 9999)%Z && (1 <=? m)%Z && (m <=? 12)%Z
            && (1 <=? d)%Z && (d <=? days_in_month y m)%Z) eqn:E; [|discriminate].
  injection H as <-. repeat rewrite andb_true_iff in E. rewrite !Z.leb_le in E.
  split; [reflexivity | simpl; lia].
Qed.

Lemma strptime_valid : forall x fmt dt,
  strptime x fmt = Ok dt ->
  (1 <= year dt <= 9999)%Z /\ (1 <= month dt <= 12)%Z /\ (1 <= day dt <= days_in_month (year dt) (month dt))%Z.
Proof.
  intros x fmt dt H. unfold strptime in H.
  destruct (match_format fmt x) as [[caps [|c r]]|]; try discriminate.
  apply mk_datetime_valid in H as (-> & H). exact H.
Qed.

Lemma first_some_in {A B} (f : A -> option B) xs b :
  first_some f xs = Some b -> exists x, In x xs /\ f x = Some b.
Proof.
  induction xs as [|x xs IH]; simpl; [discriminate|].
  destruct (f x) eqn:E; [intros [= <-]; eauto|].
  intros H. destruct (IH H) as [y [Hy Hf]]. eauto.
Qed.

(** A date from [parse_date_safe] is a valid calendar date. *)
Lemma parse_date_safe_valid : forall ty x dt,
  parse_date_safe ty x = Some dt ->
  (1 <= year dt <= 9999)%Z /\ (1 <= month dt <= 12)%Z /\ (1 <= day dt <= days_in_month (year dt) (month dt))%Z.
Proof.
  intros ty x dt H. unfold parse_date_safe in H.
  destruct (strip x); [discriminate|].
  apply first_some_in in H as [fmt [_ H]].
  destruct (strptime _ fmt) as [dt0|] eqn:E; [|discriminate].
  destruct (Z.eqb (year dt0) 1900).
  - unfold replace_year in H. destruct (mk_datetime ty (month dt0) (day dt0)) eqn:E2; [|discriminate].
    injection H as <-. apply mk_datetime_valid in E2 as (-> & H). exact H.
  - injection H as <-. eapply strptime_valid; eauto.
Qed.

Lemma filter_to_month_kept {R} : forall tm ty (date_of : R -> cell) rows kept,
  filter_to_month tm ty date_of rows = Ok kept ->
  forall r dt, In (r, dt) kept ->
  In r rows /\ parse_date_safe ty (cell_to_str (date_of r)) = Some dt /\
  month dt = tm /\ year dt = ty.
Proof.
  intros tm ty date_of rows kept H r dt Hin. unfold filter_to_month in H.
  destruct (existsb _ _); [|discriminate]. injection H as <-.
  apply in_flat_map in Hin as [[r0 o] [Hp Hin]].
  apply in_map_iff in Hp as [r1 [Hp Hr1]]. injection Hp as <- <-.
  destruct (parse_date_safe ty (cell_to_str (date_of r1))) as [dt0|] eqn:E; [|destruct Hin].
  simpl in Hin.
  destruct (Z.eqb (month dt0) tm && Z.eqb (year dt0) ty) eqn:Em; [|destruct Hin].
  destruct Hin as [[= <- <-]|[]]. apply andb_true_iff in Em as [E1 E2].
  apply Z.eqb_eq in E1, E2. auto.
Qed.


Lemma finish_dates : forall tm ty st df,
  finish tm ty st = Ok df -> forall t, In t df -> in_target_month tm ty t.
Proof.
  intros tm ty st df H t Ht. unfold finish in H.
  apply bind_ok in H as [kept [Hk H]].
  destruct (map_result_in _ _ _ H t Ht) as [[[[dt d] a] p] [Hin Hg]].
  apply bind_ok in Hg as [arg [_ Hg]]. apply bind_ok in Hg as [v [_ Hg]].
  injection Hg as <-.
  destruct (filter_to_month_kept _ _ _ _ _ Hk _ _ Hin) as (_ & Hp & Hm & Hy).
  exists p. auto.
Qed.

Lemma load_any_statement_dates : forall tm ty f df,
  load_any_statement tm ty f = Ok df -> forall t, In t df -> in_target_month tm ty t.
Proof.
  intros tm ty f df H. unfold load_any_statement in H.
  crush_load H; eapply finish_dates; exact H.
Qed.

(** Every transaction of the batch comes from a file that loaded. *)
Lemma run_batch_in : forall tm ty fs all log,
  run_batch tm ty fs = (Proceed all, log) ->
  forall t, In t all -> exists f df, In f fs /\ load_any_statement tm ty f = Ok df /\ In t df.
Proof.
  intros tm ty fs all log H t Ht. unfold run_batch in H.
  pose proof (load_files_tables tm ty fs) as HT.
  destruct (load_files tm ty fs) as [dfs log0]. simpl in HT.
  destruct dfs as [|df dfs]; [discriminate|].
  injection H as Hall _. subst all.
  change (df ++ concat dfs)%list with (concat (df :: dfs)) in Ht. rewrite HT in Ht.
  apply in_concat in Ht as [d [Hd Ht]].
  apply in_flat_map in Hd as [f [Hf Hd]].
  destruct (load_any_statement tm ty f) eqn:E; [|destruct Hd].
  destruct Hd as [<-|[]]. eauto.
Qed.

(** X1: every transaction handed to the reports has a date text that
    [parse_date_safe] reads as a date of the target month and year, so
    the [ParsedDate] column used to order Report 3 is never empty. *)
Theorem run_batch_dates_in_target_month : forall tm ty fs all log,
  run_batch tm ty fs = (Proceed all, log) ->
  forall t, In t all -> in_target_month tm ty t.
Proof.
  intros tm ty fs all log H t Ht.
  destruct (run_batch_in _ _ _ _ _ H t Ht) as (f & df & _ & Hf & Hin).
  eapply load_any_statement_dates; eauto.
Qed.

Lemma run_batch_dates_in_target_month_witness :
  match run_batch 1 2026 [fmt1_kroger; fmt3_with_autopay] with
  | (Proceed all, _) => forall t, In t all -> in_target_month 1 2026 t
  | (Exit1, _) => False
  end.
Proof.
  destruct (run_batch 1 2026 [fmt1_kroger; fmt3_with_autopay]) as [o log] eqn:E.
  destruct o as [|all].
  - vm_compute in E. discriminate.
  - exact (run_batch_dates_in_target_month 1 2026 _ all log E).
Defined.

(** X2: the month and year typed by the user are not checked; with a
    month outside 1..12 or a year outside 1..9999 no row can pass the
    month filter, so the batch either exits or produces no transaction. *)
Theorem run_batch_bad_month_empty : forall tm ty fs all log,
  (tm < 1 \/ 12 < tm \/ ty < 1 \/ 9999 < ty)%Z ->
  run_batch tm ty fs = (Proceed all, log) -> all = [].
Proof.
  intros tm ty fs all log Hbad H.
  destruct all as [|t all]; [reflexivity|exfalso].
  destruct (run_batch_dates_in_target_month _ _ _ _ _ H t (or_introl eq_refl))
    as (dt & Hp & <- & <-).
  apply parse_date_safe_valid in Hp. lia.
Qed.

Lemma run_batch_bad_month_empty_witness :
  run_batch 13 2026 [fmt1_february] = (Proceed [], [Processing "stmt_feb2.csv"; Loaded 0]) /\
  [] = @nil txn.
Proof.
  assert (H : run_batch 13 2026 [fmt1_february] = (Proceed [], [Processing "stmt_feb2.csv"; Loaded 0]))
    by (vm_compute; reflexivity).
  split; [exact H|].
  exact (run_batch_bad_month_empty 13 2026 _ [] _ ltac:(lia) H).
Defined.

(* ================================================================== *)
(** ** Report 1 against Report 2 *)

Lemma ascii_compare_trans_lt : forall a b c,
  Ascii.compare a b = Lt -> Ascii.compare b c = Lt -> Ascii.compare a c = Lt.
Proof.
  intros a b c. unfold Ascii.compare. rewrite !N.compare_lt_iff. lia.
Qed.

Lemma ascii_compare_lt_eq : forall a b c,
  Ascii.compare a b = Lt -> Ascii.compare b c = Eq -> Ascii.compare a c = Lt.
Proof.
  intros a b c H1 H2. apply Ascii.compare_eq_iff in H2. now subst.
Qed.

Lemma ascii_compare_eq_lt : forall a b c,
  Ascii.compare a b = Eq -> Ascii.compare b c = Lt -> Ascii.compare a c = Lt.
Proof.
  intros a b c H1 H2. apply Ascii.compare_eq_iff in H1. now subst.
Qed.

Lemma string_compare_trans_lt : forall a b c,
  String.compare a b = Lt -> String.compare b c = Lt -> String.compare a c = Lt.
Proof.
  induction a as [|x a IH]; intros [|y b] [|z c]; simpl; try discriminate; auto.
  destruct (Ascii.compare x y) eqn:Exy; try discriminate;
  destruct (Ascii.compare y z) eqn:Eyz; try discriminate; intros H1 H2.
  - apply Ascii.compare_eq_iff in Exy, Eyz. subst.
    assert (Hz : Ascii.compare z z = Eq) by (unfold Ascii.compare; apply N.compare_refl).
    rewrite Hz. eauto.
  - rewrite (ascii_compare_eq_lt _ _ _ Exy Eyz). reflexivity.
  - rewrite (ascii_compare_lt_eq _ _ _ Exy Eyz). reflexivity.
  - rewrite (ascii_compare_trans_lt _ _ _ Exy Eyz). reflexivity.
Qed.


Lemma str_lt_trans : forall a b c, str_lt a b -> str_lt b c -> str_lt a c.
Proof.
  unfold str_lt, String.ltb. intros a b c H1 H2.
  destruct (String.compare a b) eqn:E1; try discriminate.
  destruct (String.compare b c) eqn:E2; try discriminate.
  now rewrite (string_compare_trans_lt _ _ _ E1 E2).
Qed.

Lemma str_lt_irrefl : forall a, ~ str_lt a a.
Proof.
  unfold str_lt, String.ltb. intros a H.
  pose proof (String.compare_antisym a a) as E.
  destruct (String.compare a a); simpl in E; discriminate.
Qed.

Lemma str_lt_total : forall v w, v <> w -> String.ltb v w = false -> str_lt w v.
Proof.
  unfold str_lt, String.ltb. intros v w Hne H.
  rewrite String.compare_antisym.
  destruct (String.compare v w) eqn:E; simpl; try reflexivity; try discriminate.
  apply String.compare_eq_iff in E. contradiction.
Qed.

Lemma insert_sorted_in : forall x l v, In v (insert_sorted x l) <-> x = v \/ In v l.
Proof.
  intros x l v. induction l as [|w l IH]; simpl; [tauto|].
  destruct (String.eqb_spec x w) as [<-|]; [simpl; tauto|].
  destruct (String.ltb x w); simpl; [tauto|]. rewrite IH. tauto.
Qed.

Lemma insert_sorted_ss : forall x l,
  StronglySorted str_lt l -> StronglySorted str_lt (insert_sorted x l).
Proof.
  intros x l. induction l as [|w l IH]; intros Hs; simpl.
  - repeat constructor.
  - apply StronglySorted_inv in Hs as [Hl Hw].
    destruct (String.eqb_spec x w) as [<-|Hne]; [now constructor|].
    destruct (String.ltb x w) eqn:Elt.
    + constructor; [now constructor|]. constructor; [exact Elt|].
      rewrite Forall_forall in *. intros y Hy. eapply str_lt_trans; [exact Elt | auto].
    + constructor; [now apply IH|]. rewrite Forall_forall in *. intros y Hy.
      apply insert_sorted_in in Hy as [<-|Hy]; [now apply str_lt_total | auto].
Qed.

Lemma ss_nodup : forall l, StronglySorted str_lt l -> NoDup l.
Proof.
  induction 1 as [|x l Hs IH Hx]; constructor; [|exact IH].
  intros Hin. rewrite Forall_forall in Hx. exact (str_lt_irrefl x (Hx x Hin)).
Qed.

Lemma vendor_keys_sorted : forall vs, StronglySorted str_lt (fold_right insert_sorted [] vs).
Proof. induction vs; simpl; [constructor | now apply insert_sorted_ss]. Qed.

Lemma vendor_keys_in : forall vs v, In v (fold_right insert_sorted [] vs) <-> In v vs.
Proof.
  induction vs as [|x vs IH]; intros v; simpl; [tauto|].
  rewrite insert_sorted_in, IH. tauto.
Qed.

Lemma partition_by_key {A} (k : A -> string) (keys : list string) (xs : list A) :
  NoDup keys -> (forall x, In x xs -> In (k x) keys) ->
  Permutation (flat_map (fun key => filter (fun x => String.eqb (k x) key) xs) keys) xs.
Proof.
  intros Hnd. induction xs as [|x xs IH]; intros Hall.
  - simpl. clear Hnd Hall. induction keys; simpl; auto.
  - assert (Hc : forall key, filter (fun y => String.eqb (k y) key) (x :: xs) =
              if String.eqb (k x) key then x :: filter (fun y => String.eqb (k y) key) xs
              else filter (fun y => String.eqb (k y) key) xs) by reflexivity.
    rewrite (flat_map_ext _ _ Hc).
    transitivity (x :: flat_map (fun key => filter (fun y => String.eqb (k y) key) xs) keys).
    + apply (flat_map_insert_once (fun key => filter (fun y => String.eqb (k y) key) xs)
               (fun key => String.eqb (k x) key) x).
      apply filter_eqb_nodup; [exact Hnd | apply Hall; left; reflexivity].
    + constructor. apply IH. intros y Hy. apply Hall. right. exact Hy.
Qed.

(** The vendor rows of a category add up to the category's total. *)
Lemma vendor_totals_sum : forall rs,
  qsum (map snd (vendor_totals rs)) = pandas_sum (map t_amount rs).
Proof.
  intros rs. unfold vendor_totals. rewrite map_map. simpl.
  rewrite <- (pandas_sum_flat_map (fun v => filter (fun t => String.eqb (t_vendor t) v) rs)).
  apply pandas_sum_perm, Permutation_map, partition_by_key.
  - apply ss_nodup, vendor_keys_sorted.
  - intros t Ht. apply vendor_keys_in, in_map, Ht.
Qed.

Lemma report1_cat_totals : forall txns,
  map (fun sec => (fst (fst sec), snd sec)) (report1_sections txns) = cat_totals txns.
Proof.
  intros txns. unfold report1_sections, cat_totals. generalize category_order as order.
  induction order as [|cat order IH]; [reflexivity|].
  cbn [flat_map]. rewrite map_app, IH. f_equal.
  destruct (cat_rows cat txns) as [|t rs] eqn:E; [reflexivity|].
  simpl. now rewrite vendor_totals_sum.
Qed.

Lemma report1_section_shape : forall txns cat vt total,
  In (cat, vt, total) (report1_sections txns) ->
  vt = vendor_totals (cat_rows cat txns) /\ cat_rows cat txns <> [].
Proof.
  intros txns cat vt total H. unfold report1_sections in H.
  apply in_flat_map in H as [c [_ H]].
  destruct (cat_rows c txns) as [|t rs] eqn:E; [destruct H|].
  destruct H as [[= <- <- _]|[]]. rewrite E. split; [reflexivity | discriminate].
Qed.

(** X3: Report 1 has one section per category row of Report 2, in the
    same order; inside a section the vendor rows are in strictly
    increasing order (so each vendor appears once) and are exactly the
    vendors of that category's transactions. *)
Theorem report1_agrees_with_report2 : forall txns,
  map (fun sec => fst (fst sec)) (report1_sections txns) = map fst (cat_totals txns) /\
  forall cat vt total, In (cat, vt, total) (report1_sections txns) ->
    StronglySorted str_lt (map fst vt) /\
    (forall v, In v (map fst vt) <-> exists t, In t (cat_rows cat txns) /\ t_vendor t = v).
Proof.
  intros txns. split.
  - rewrite <- (report1_cat_totals txns), map_map. reflexivity.
  - intros cat vt total H.
    apply report1_section_shape in H as [-> _].
    unfold vendor_totals. rewrite map_map. simpl. rewrite map_id.
    split; [apply vendor_keys_sorted|].
    intros v. rewrite vendor_keys_in, in_map_iff. firstorder.
Qed.

Lemma report1_agrees_with_report2_witness :
  In ("Shopping & Retail", [("AMAZON", Q2Qc (-5)); ("TARGET", Q2Qc (-20))], Q2Qc (-25))
     (report1_sections sample_txns) /\
  StronglySorted str_lt ["AMAZON"; "TARGET"].
Proof.
  assert (H : In ("Shopping & Retail", [("AMAZON", Q2Qc (-5)); ("TARGET", Q2Qc (-20))], Q2Qc (-25))
                 (report1_sections sample_txns)).
  { right. left. qc_eval. }
  split; [exact H|].
  exact (proj1 (proj2 (report1_agrees_with_report2 sample_txns) _ _ _ H)).
Defined.

(* ================================================================== *)
(** ** File selection *)

Lemma select_files_subset_lemma : forall avail inp f,
  In f (select_files avail inp) -> In f avail.
Proof.
  intros avail inp f. unfold select_files.
  destruct (strip inp) as [|c s]; [auto|].
  destruct (all_some _) as [ns|]; [|auto].
  intros H. apply in_flat_map in H as [n [_ H]].
  destruct ((0 <=? n - 1)%Z && (n - 1 <? Z.of_nat (length avail))%Z) eqn:E; [|destruct H].
  destruct H as [<-|[]]. apply andb_true_iff in E as [E1 E2].
  apply Z.leb_le in E1. apply Z.ltb_lt in E2.
  apply nth_In. lia.
Qed.

(** X4: the selection only ever names files of the directory listing, and
    as soon as one comma-separated piece of the answer is not an integer
    (an empty piece included, as in "1,"), every file is processed. *)
Theorem select_files_subset_or_all : forall avail inp,
  (forall f, In f (select_files avail inp) -> In f avail) /\
  (all_some (map (fun x => int_text (strip x)) (split_on "," (strip inp))) = None ->
   select_files avail inp = avail).
Proof.
  intros avail inp. split; [apply select_files_subset_lemma|].
  intros H. unfold select_files. destruct (strip inp); [reflexivity|].
  now rewrite H.
Qed.

Lemma select_files_subset_or_all_witness :
  select_files ["jan.csv"; "feb.csv"] "1," = ["jan.csv"; "feb.csv"].
Proof.
  apply (proj2 (select_files_subset_or_all ["jan.csv"; "feb.csv"] "1,")).
  vm_compute. reflexivity.
Defined.



Lemma digit_not_sep : forall c sep, is_digit c = true -> is_digit sep = false -> Ascii.eqb c sep = false.
Proof.
  intros c sep H1 H2. destruct (Ascii.eqb_spec c sep); [congruence | reflexivity].
Qed.

Lemma rev_string_acc : forall x acc, rev_string x acc = (rev_string x EmptyString ++ acc)%string.
Proof.
  induction x as [|c x IH]; intros acc; simpl; [reflexivity|].
  rewrite IH, (IH (String c EmptyString)), string_app_assoc. reflexivity.
Qed.


Lemma rev_string_in : forall x c,
  In c (list_ascii_of_string (rev_string x EmptyString)) <-> In c (list_ascii_of_string x).
Proof.
  induction x as [|d x IH]; intros c; simpl; [tauto|].
  rewrite rev_string_acc.
  assert (Happ : forall a b, list_ascii_of_string (a ++ b) = (list_ascii_of_string a ++ list_ascii_of_string b)%list).
  { induction a as [|e a IHa]; intros b; simpl; [reflexivity | now rewrite IHa]. }
  rewrite Happ, in_app_iff, IH. simpl. tauto.
Qed.

















(** *** Batches of statement files *)

Lemma load_files_app : forall tm ty fs1 fs2,
  load_files tm ty (fs1 ++ fs2) =
  ((fst (load_files tm ty fs1) ++ fst (load_files tm ty fs2))%list,
   (snd (load_files tm ty fs1) ++ snd (load_files tm ty fs2))%list).
Proof.
  intros tm ty fs1 fs2. induction fs1 as [|f fs1 IH]; simpl.
  - destruct (load_files tm ty fs2); reflexivity.
  - rewrite IH. destruct (load_files tm ty fs1) as [d1 l1]. simpl.
    destruct (load_any_statement tm ty f); [reflexivity|].
    simpl. now rewrite <- app_assoc.
Qed.

(** X6: running the batch on two lists of files one after the other is
    running it on each list: when each list loads at least one file, the
    transactions and the log lines of the joint run are those of the first
    run followed by those of the second, and the rows of each category that
    the reports sum are those of the first run followed by those of the
    second (so a file listed twice is counted twice). *)
Theorem run_batch_app : forall tm ty fs1 fs2 all1 log1 all2 log2,
  run_batch tm ty fs1 = (Proceed all1, log1) ->
  run_batch tm ty fs2 = (Proceed all2, log2) ->
  run_batch tm ty (fs1 ++ fs2) = (Proceed (all1 ++ all2)%list, (log1 ++ log2)%list) /\
  forall cat, cat_rows cat (all1 ++ all2)%list = (cat_rows cat all1 ++ cat_rows cat all2)%list.
Proof.
  intros tm ty fs1 fs2 all1 log1 all2 log2 H1 H2.
  split; [|intros cat; unfold cat_rows; apply filter_app].
  unfold run_batch in *. rewrite load_files_app.
  destruct (load_files tm ty fs1) as [d1 l1], (load_files tm ty fs2) as [d2 l2]. simpl.
  destruct d1 as [|x1 d1]; [discriminate|]. destruct d2 as [|x2 d2]; [discriminate|].
  injection H1 as <- <-. injection H2 as <- <-.
  simpl. rewrite concat_app. simpl. rewrite app_assoc. reflexivity.
Qed.

Lemma run_batch_app_witness :
  match run_batch 1 2026 [fmt1_kroger], run_batch 1 2026 [fmt3_with_autopay] with
  | (Proceed all1, log1), (Proceed all2, log2) =>
      run_batch 1 2026 ([fmt1_kroger] ++ [fmt3_with_autopay]) = (Proceed (all1 ++ all2)%list, (log1 ++ log2)%list) /\
      forall cat, cat_rows cat (all1 ++ all2)%list = (cat_rows cat all1 ++ cat_rows cat all2)%list
  | _, _ => False
  end.
Proof.
  destruct (run_batch 1 2026 [fmt1_kroger]) as [o1 log1] eqn:E1.
  destruct (run_batch 1 2026 [fmt3_with_autopay]) as [o2 log2] eqn:E2.
  destruct o1 as [|all1]; [vm_compute in E1; discriminate|].
  destruct o2 as [|all2]; [vm_compute in E2; discriminate|].
  exact (run_batch_app 1 2026 [fmt1_kroger] [fmt3_with_autopay] all1 log1 all2 log2 E1 E2).
Defined.

(** *** Rules of equal priority *)


Lemma filter_all_false {A} (f : A -> bool) (l : list A) :
  (forall x, In x l -> f x = false) -> filter f l = [].
Proof.
  induction l as [|x l IH]; intros H; simpl; [reflexivity|].
  rewrite (H x (or_introl eq_refl)). apply IH. intros y Hy. apply H. right. exact Hy.
Qed.

Lemma insert_rule_stable : forall p r l, Sorted prio_desc l ->
  filter (prio_is p) (Email.insert_rule r l) = (filter (prio_is p) l ++ filter (prio_is p) [r])%list.
Proof.
  intros p r l Hs. apply Sorted_StronglySorted in Hs;
    [|intros a b c Hab Hbc; unfold prio_desc in *; lia].
  induction Hs as [|x l Hl IH Hx]; [reflexivity|].
  cbn [Email.insert_rule]. destruct (Email.priority r <=? Email.priority x)%Z eqn:Ele.
  - cbn [filter]. rewrite IH. destruct (prio_is p x); reflexivity.
  - apply Z.leb_gt in Ele.
    change (filter (prio_is p) (r :: x :: l)) with
      (if prio_is p r then r :: filter (prio_is p) (x :: l) else filter (prio_is p) (x :: l)).
    change (filter (prio_is p) [r]) with (if prio_is p r then [r] else []).
    destruct (prio_is p r) eqn:Er.
    + unfold prio_is in Er. apply Z.eqb_eq in Er.
      rewrite filter_all_false; [reflexivity|].
      intros y [<-|Hy]; unfold prio_is; apply Z.eqb_neq; [lia|].
      rewrite Forall_forall in Hx. specialize (Hx y Hy). unfold prio_desc in Hx. lia.
    + rewrite app_nil_r. reflexivity.
Qed.

Lemma sort_rules_stable : forall p rs,
  filter (prio_is p) (Email.sort_rules rs) = filter (prio_is p) rs.
Proof.
  intros p rs. unfold Email.sort_rules.
  assert (H : forall acc, Sorted prio_desc acc ->
    filter (prio_is p) (fold_left (fun acc r => Email.insert_rule r acc) rs acc) =
    (filter (prio_is p) acc ++ filter (prio_is p) rs)%list).
  { induction rs as [|r rs IH]; intros acc Hacc; simpl; [now rewrite app_nil_r|].
    rewrite IH by (apply insert_rule_sorted, Hacc).
    rewrite insert_rule_stable by exact Hacc. rewrite <- app_assoc. simpl.
    destruct (prio_is p r); reflexivity. }
  rewrite H by constructor. reflexivity.
Qed.

Lemma find_filter {A} (f g : A -> bool) (l : list A) :
  find (fun x => f x && g x) l = find f (filter g l).
Proof.
  induction l as [|x l IH]; simpl; [reflexivity|].
  destruct (g x); simpl; destruct (f x); simpl; auto.
Qed.

Lemma find_and {A} (f g : A -> bool) (l : list A) r :
  find f l = Some r -> g r = true -> find (fun x => f x && g x) l = Some r.
Proof.
  induction l as [|x l IH]; simpl; [discriminate|].
  destruct (f x) eqn:Ef; simpl.
  - intros [= <-] Hg. rewrite Hg. reflexivity.
  - exact IH.
Qed.

(** X8: rules of equal priority are tried in the order of the rules
    file ([list.sort] is stable).  If [r] is a rule of the file that
    matches the upper-cased vendor with the highest priority among the
    matching rules, the category returned is that of the first rule of
    the file, in file order, that matches and has that priority. *)
Theorem email_equal_priority_file_order : forall fs raw vendor r,
  Email.rules_of_file fs = Ok raw ->
  In r raw -> Email.rule_matches r (upper vendor) = true ->
  (forall r', In r' raw -> Email.rule_matches r' (upper vendor) = true ->
     (Email.priority r' <= Email.priority r)%Z) ->
  exists r0,
    find (fun x => Email.rule_matches x (upper vendor) && prio_is (Email.priority r) x) raw = Some r0 /\
    fst (fst (Email.categorize_vendor fs None vendor)) = Email.category r0.
Proof.
  intros fs raw vendor r H Hin Hm Hmax.
  set (v := upper vendor) in *.
  assert (Hc : fst (fst (Email.categorize_vendor fs None vendor)) =
               match find (fun x => Email.rule_matches x v) (Email.sort_rules raw) with
               | Some r => Email.category r
               | None => Email.default_category
               end).
  { subst v. unfold Email.categorize_vendor, Email.load_category_rules. rewrite H. reflexivity. }
  pose proof (sort_rules_perm raw) as HP.
  pose proof (sort_rules_sorted raw) as HS.
  destruct (find (fun x => Email.rule_matches x v) (Email.sort_rules raw)) as [r1|] eqn:E.
  - pose proof E as E'. apply find_some in E' as [Hin1 Hm1].
    assert (Hge := find_sorted_max _ _ _ HS E r (Permutation_in _ (Permutation_sym HP) Hin) Hm).
    assert (Hle := Hmax r1 (Permutation_in _ HP Hin1) Hm1).
    exists r1. split; [|exact Hc].
    replace (Email.priority r) with (Email.priority r1) by lia.
    rewrite find_filter, <- (sort_rules_stable _ raw), <- find_filter.
    apply find_and; [exact E|]. apply Z.eqb_refl.
  - exfalso. pose proof (find_none _ _ E r (Permutation_in _ (Permutation_sym HP) Hin)).
    congruence.
Qed.


Lemma email_equal_priority_file_order_witness :
  match Email.rules_of_file tie_rules with
  | Ok raw =>
      exists r0,
        find (fun x => Email.rule_matches x (upper "Kroger #123") && prio_is 5 x) raw = Some r0 /\
        fst (fst (Email.categorize_vendor tie_rules None "Kroger #123")) = Email.category r0
  | Raise _ => False
  end.
Proof.
  destruct (Email.rules_of_file tie_rules) as [raw|e] eqn:E; [|vm_compute in E; discriminate].
  pose proof E as E'. vm_compute in E'. injection E' as E'. subst raw.
  refine (email_equal_priority_file_order tie_rules _ "Kroger #123"
            (Email.mkrule (CStr "R3") 5 "KROGER #" (CStr "Auto & Gas") (CStr "") (CStr "") (CStr "No"))
            E _ _ _).
  - simpl. right. right. left. reflexivity.
  - vm_compute. reflexivity.
  - intros r' Hin' _. simpl in Hin'.
    destruct Hin' as [<-|[<-|[<-|[]]]]; simpl; lia.
Defined.

(** *** PDF extraction *)

Lemma run_suffixes_in : forall f s t, In t (run_suffixes f s) ->
  exists w, s = (w ++ t)%string /\ w <> EmptyString /\
            forall c, In c (list_ascii_of_string w) -> f c = true.
Proof.
  intros f s. induction s as [|c s IH]; intros t Ht; simpl in Ht; [contradiction|].
  destruct (f c) eqn:Ec; [|contradiction].
  destruct Ht as [<-|Ht].
  - exists (String c EmptyString). split; [reflexivity|]. split; [discriminate|].
    intros d [<-|[]]. exact Ec.
  - destruct (IH t Ht) as [w [-> [_ Hw]]].
    exists (String c w). split; [reflexivity|]. split; [discriminate|].
    intros d [<-|Hd]; [exact Ec | exact (Hw d Hd)].
Qed.

Lemma pm_cat_in : forall p1 p2 s t gs, In (t, gs) (pm (PCat p1 p2) s) ->
  exists t1 gs1 gs2, In (t1, gs1) (pm p1 s) /\ In (t, gs2) (pm p2 t1) /\ gs = (gs1 ++ gs2)%list.
Proof.
  intros p1 p2 s t gs H. simpl in H. apply in_flat_map in H as [[t1 gs1] [H1 H2]].
  apply in_map_iff in H2 as [[t2 gs2] [Heq H2]]. simpl in Heq. injection Heq as <- <-.
  exists t1, gs1, gs2. auto.
Qed.

Lemma pm_group_in : forall p s t gs, In (t, gs) (pm (PGroup p) s) ->
  exists gs', In (t, gs') (pm p s) /\ gs = consumed s t :: gs'.
Proof.
  intros p s t gs H. simpl in H. apply in_map_iff in H as [[t' gs'] [Heq H]].
  simpl in Heq. injection Heq as <- <-. exists gs'. auto.
Qed.

Lemma pm_plus_in : forall g f s t gs, In (t, gs) (pm (PPlus g f) s) ->
  gs = [] /\ In t (run_suffixes f s).
Proof.
  intros g f s t gs H. simpl in H. apply in_map_iff in H as [t' [Heq H]].
  injection Heq as <- <-. split; [reflexivity|].
  destruct g; [apply in_rev in H|]; exact H.
Qed.

Lemma pm_cls_in : forall f s t gs, In (t, gs) (pm (PCls f) s) ->
  gs = [] /\ exists c, s = String c t /\ f c = true.
Proof.
  intros f s t gs H. simpl in H. destruct s as [|c s]; [contradiction|].
  destruct (f c) eqn:Ec; [|contradiction]. destruct H as [H|[]].
  injection H as <- <-. eauto.
Qed.

Lemma pm_suffix : forall p s t gs, In (t, gs) (pm p s) -> exists w, s = (w ++ t)%string.
Proof.
  induction p as [f|g f|p1 IH1 p2 IH2|p IH]; intros s t gs H.
  - apply pm_cls_in in H as [_ [c [-> _]]]. exists (String c EmptyString). reflexivity.
  - apply pm_plus_in in H as [_ H]. apply run_suffixes_in in H as [w [-> _]]. eauto.
  - apply pm_cat_in in H as [t1 [gs1 [gs2 [H1 [H2 _]]]]].
    destruct (IH1 _ _ _ H1) as [w1 ->]. destruct (IH2 _ _ _ H2) as [w2 ->].
    exists (w1 ++ w2)%string. symmetry. apply string_app_assoc.
  - apply pm_group_in in H as [gs' [H _]]. exact (IH _ _ _ H).
Qed.

Lemma consumed_app : forall w t, consumed (w ++ t) t = w.
Proof.
  intros w t. unfold consumed. rewrite length_string_app.
  replace (String.length w + String.length t - String.length t)%nat with (String.length w) by lia.
  induction w as [|c w IH]; simpl; [destruct t; reflexivity | now rewrite IH].
Qed.

Lemma search_in : forall p s gs, search p s = Some gs ->
  exists s' t, In (t, gs) (pm p s').
Proof.
  intros p s. induction s as [|c s IH]; intros gs H; simpl in H.
  - destruct (pm p EmptyString) as [|[t gs'] rs] eqn:E; [discriminate|].
    injection H as <-. exists EmptyString, t. rewrite E. left. reflexivity.
  - destruct (pm p (String c s)) as [|[t gs'] rs] eqn:E.
    + exact (IH gs H).
    + injection H as <-. exists (String c s), t. rewrite E. left. reflexivity.
Qed.


Lemma date_pat_in : forall s t gs, In (t, gs) (pm date_pat s) ->
  gs = [] /\ md_text (consumed s t).
Proof.
  intros s t gs H. unfold date_pat in H.
  apply pm_cat_in in H as [t1 [g1 [r1 [H1 [H ->]]]]].
  apply pm_cls_in in H1 as [-> [a [-> Ha]]].
  apply pm_cat_in in H as [t2 [g2 [r2 [H2 [H ->]]]]].
  apply pm_cls_in in H2 as [-> [b [-> Hb]]].
  apply pm_cat_in in H as [t3 [g3 [r3 [H3 [H ->]]]]].
  apply pm_cls_in in H3 as [-> [sl [-> Hs]]].
  apply pm_cat_in in H as [t4 [g4 [r4 [H4 [H5 ->]]]]].
  apply pm_cls_in in H4 as [-> [c [-> Hc]]].
  apply pm_cls_in in H5 as [-> [e [-> He]]].
  split; [reflexivity|].
  unfold is_char in Hs. apply Ascii.eqb_eq in Hs. subst sl.
  exists a, b, c, e. split; [|auto].
  change (String a (String b (String "/" (String c (String e t))))) with
    (String a (String b (String "/" (String c (String e EmptyString)))) ++ t)%string.
  apply consumed_app.
Qed.

Lemma pdf_pattern_in : forall s t gs, In (t, gs) (pm pdf_pattern s) ->
  exists g1 g2 g3 g4, gs = [g1; g2; g3; g4] /\ md_text g2 /\
    exists w, g4 = String "$" w /\ forall c, In c (list_ascii_of_string w) -> amount_char c = true.
Proof.
  intros s t gs H. unfold pdf_pattern in H.
  apply pm_cat_in in H as [t1 [g1 [r1 [H1 [H ->]]]]].
  apply pm_group_in in H1 as [x1 [H1 ->]]. apply date_pat_in in H1 as [-> _].
  apply pm_cat_in in H as [t2 [g2 [r2 [H2 [H ->]]]]]. apply pm_plus_in in H2 as [-> _].
  apply pm_cat_in in H as [t3 [g3 [r3 [H3 [H ->]]]]].
  apply pm_group_in in H3 as [x3 [H3 ->]]. apply date_pat_in in H3 as [-> Hd].
  apply pm_cat_in in H as [t4 [g4 [r4 [H4 [H ->]]]]]. apply pm_plus_in in H4 as [-> _].
  apply pm_cat_in in H as [t5 [g5 [r5 [H5 [H ->]]]]].
  apply pm_group_in in H5 as [x5 [H5 ->]]. apply pm_plus_in in H5 as [-> _].
  apply pm_cat_in in H as [t6 [g6 [r6 [H6 [H ->]]]]]. apply pm_plus_in in H6 as [-> _].
  apply pm_group_in in H as [x7 [H7 ->]].
  apply pm_cat_in in H7 as [t8 [g8 [r8 [H8 [H9 ->]]]]].
  apply pm_cls_in in H8 as [-> [dl [-> Hdl]]].
  apply pm_plus_in in H9 as [-> H9]. apply run_suffixes_in in H9 as [w [-> [_ Hw]]].
  unfold is_char in Hdl. apply Ascii.eqb_eq in Hdl. subst dl.
  eexists _, _, _, _. split; [reflexivity|]. split; [exact Hd|].
  exists w. split; [|exact Hw].
  change (String "$" (w ++ t)) with (String "$" w ++ t)%string. apply consumed_app.
Qed.

Lemma in_lstrip : forall s c, In c (list_ascii_of_string (lstrip s)) -> In c (list_ascii_of_string s).
Proof.
  induction s as [|d s IH]; intros c H; simpl in *; [exact H|].
  destruct (is_space d); [right; exact (IH c H) | exact H].
Qed.

Lemma in_strip : forall s c, In c (list_ascii_of_string (strip s)) -> In c (list_ascii_of_string s).
Proof.
  intros s c H. unfold strip in H.
  apply rev_string_in, in_lstrip, rev_string_in, in_lstrip in H. exact H.
Qed.

Lemma in_remove_char : forall x s c,
  In c (list_ascii_of_string (remove_char x s)) -> In c (list_ascii_of_string s) /\ c <> x.
Proof.
  intros x. induction s as [|d s IH]; intros c H; simpl in *; [contradiction|].
  destruct (Ascii.eqb_spec x d) as [<-|Hne].
  - destruct (IH c H) as [H1 H2]. auto.
  - destruct H as [<-|H]; [split; [left; reflexivity | congruence]|].
    destruct (IH c H) as [H1 H2]. auto.
Qed.

Lemma parse_float_nan : forall s, parse_float s = Some NaN -> lower (strip s) = "nan".
Proof.
  intros s H. unfold parse_float in H.
  destruct (String.eqb_spec (lower (strip s)) "nan") as [E|_]; [exact E|].
  destruct (read_sign (strip s)) as [sg s1].
  destruct (read_digits s1 0 O) as [[ip ni] s2].
  destruct (match s2 with String "." s2' => read_digits s2' 0 O | _ => (0%Z, O, s2) end)
    as [[fp nf] s3].
  destruct (ni + nf =? 0)%nat; [discriminate|].
  destruct s3 as [|c s4]; [discriminate|].
  destruct (Ascii.eqb c "e" || Ascii.eqb c "E"); [|discriminate].
  destruct (read_sign s4) as [esg s5]. destruct (read_digits s5 0 O) as [[ev ne] s6].
  destruct ne, s6; discriminate.
Qed.

Lemma lower_char_n : forall c, lower_char c = "n"%char -> c = "n"%char \/ c = "N"%char.
Proof.
  intros c H. destruct c as [[|][|][|][|][|][|][|][|]]; vm_compute in H;
    try discriminate; first [left; reflexivity | right; reflexivity].
Qed.

(** The amount text of a matched line never reads as NaN. *)
Lemma pdf_amount_not_nan : forall w,
  (forall c, In c (list_ascii_of_string w) -> amount_char c = true) ->
  parse_float (remove_char "," (remove_char "$" (strip (String "$" w)))) <> Some NaN.
Proof.
  intros w Hw H. apply parse_float_nan in H.
  set (x := remove_char "," (remove_char "$" (strip (String "$" w)))) in H.
  assert (Hin : forall c, In c (list_ascii_of_string (strip x)) -> c <> "n"%char /\ c <> "N"%char).
  { intros c Hc. apply in_strip in Hc. subst x.
    apply in_remove_char in Hc as [Hc _]. apply in_remove_char in Hc as [Hc Hd].
    apply in_strip in Hc. destruct Hc as [<-|Hc]; [congruence|].
    specialize (Hw c Hc). split; intros ->; discriminate. }
  destruct (strip x) as [|c r]; [discriminate|].
  injection H as Hc _. destruct (lower_char_n c Hc) as [->| ->];
    [apply (proj1 (Hin "n"%char (or_introl eq_refl))) | apply (proj2 (Hin "N"%char (or_introl eq_refl)))];
    reflexivity.
Qed.


Lemma neg_abs_nonpos : forall q : Qc, (this (Qcopp (Qcabs q)) <= 0)%Q.
Proof.
  intros q. change (this (Qcopp (Qcabs q))) with (Qred (- this (Qcabs q))%Q).
  rewrite Qred_correct.
  pose proof (Qcabs_nonneg q) as H. unfold Qcle in H.
  apply Qopp_le_compat in H. exact H.
Qed.

Lemma pdf_line_rows : forall st line,
  (forall row, In row (snd st) -> pdf_row_ok row) ->
  forall row, In row (snd (pdf_line st line)) -> pdf_row_ok row.
Proof.
  intros [ins txs] line Hst. unfold pdf_line. simpl in Hst.
  destruct (_ || _); [exact Hst|].
  destruct ins; [|exact Hst].
  destruct (existsb _ _); [exact Hst|].
  destruct (_ || _ || _); [exact Hst|].
  destruct (search pdf_pattern line) as [gs|] eqn:Es; [|exact Hst].
  destruct (search_in _ _ _ Es) as [s' [t Hpm]].
  destruct (pdf_pattern_in _ _ _ Hpm) as [g1 [g2 [g3 [g4 [-> [Hd [w [-> Hw]]]]]]]].
  destruct (parse_float _) as [[q|]|] eqn:Ep; [| |exact Hst].
  - simpl. intros row Hrow. apply in_app_or in Hrow as [Hrow|[<-|[]]]; [exact (Hst row Hrow)|].
    exists g2, (strip g3), (this (Qcopp (Qcabs q))). split; [reflexivity|].
    split; [exact Hd | apply neg_abs_nonpos].
  - exfalso. exact (pdf_amount_not_nan w Hw Ep).
Qed.

Lemma fold_pdf_line_rows : forall lines st,
  (forall row, In row (snd st) -> pdf_row_ok row) ->
  forall row, In row (snd (fold_left pdf_line lines st)) -> pdf_row_ok row.
Proof.
  induction lines as [|l lines IH]; intros st Hst; simpl; [exact Hst|].
  apply IH. apply pdf_line_rows. exact Hst.
Qed.

Lemma pdf_pages_rows : forall pages st st',
  pdf_pages st pages = Ok st' ->
  (forall row, In row (snd st) -> pdf_row_ok row) ->
  forall row, In row (snd st') -> pdf_row_ok row.
Proof.
  induction pages as [|[text|] pages IH]; intros st st' H Hst; simpl in H.
  - injection H as <-. exact Hst.
  - apply (IH _ _ H). apply fold_pdf_line_rows. exact Hst.
  - discriminate.
Qed.

(** X9: [extract_from_pdf] either raises a [ValueError] whose message
    starts with "Failed to extract PDF: ", or returns a non-empty frame
    with the columns [date], [description], [amount] in which every row
    has a posting date of the form DD/DD (two digits, a slash, two
    digits) and a non-positive amount ([-abs(amount)]): every extracted
    amount is counted as spending. *)
Theorem extract_from_pdf_spec : forall doc,
  match extract_from_pdf doc with
  | Ok fr => columns fr = ["date"; "description"; "amount"] /\ rows fr <> [] /\
             forall row, In row (rows fr) -> pdf_row_ok row
  | Raise e => exists msg, e = ValueError ("Failed to extract PDF: " ++ msg)
  end.
Proof.
  intros [pages|msg]; simpl; [|eauto].
  destruct (pdf_pages (false, []) pages) as [[ins txs]|e] eqn:E; [|eauto].
  destruct txs as [|row txs]; [eauto|].
  split; [reflexivity|]. split; [discriminate|].
  apply (pdf_pages_rows _ _ _ E). intros row' [].
Qed.

(** *** Dates without a year *)


Lemma match_alt_slash : forall ks s tok rest,
  match_alt ks s = Some (tok, rest) -> (nslash rest + kslash ks <= nslash s)%nat.
Proof.
  induction ks as [|k ks IH]; intros s tok rest H; simpl in H.
  - injection H as <- <-. simpl. lia.
  - destruct s as [|c s]; [discriminate|].
    destruct (cls_ok k c) eqn:Ek; [|discriminate].
    destruct (match_alt ks s) as [[tok' rest']|] eqn:E; [|discriminate].
    injection H as <- <-. specialize (IH _ _ _ E). simpl.
    destruct k as [c'|lo hi]; simpl in Ek |- *; [|lia].
    apply Ascii.eqb_eq in Ek. subst c'. destruct (Ascii.eqb c "/"); lia.
Qed.

Lemma directive_alts_slash : forall d alt, In alt (directive_alts d) ->
  (dslash [d] <= kslash alt)%nat.
Proof.
  intros [| | | |c] alt H; simpl; try lia.
  destruct H as [<-|[]]. simpl. destruct (Ascii.eqb c "/"); lia.
Qed.

Lemma match_format_slash : forall ds s caps rest,
  match_format ds s = Some (caps, rest) -> (nslash rest + dslash ds <= nslash s)%nat.
Proof.
  induction ds as [|d ds IH]; intros s caps rest H; simpl in H.
  - injection H as <- <-. simpl. lia.
  - apply first_some_in in H as [alt [Halt H]].
    destruct (match_alt alt s) as [[tok r]|] eqn:Ea; [|discriminate].
    destruct (match_format ds r) as [[caps' r']|] eqn:Ef; [|discriminate].
    injection H as _ <-.
    pose proof (match_alt_slash _ _ _ _ Ea). pose proof (IH _ _ _ Ef).
    pose proof (directive_alts_slash _ _ Halt).
    destruct d; simpl in *; try lia. destruct (Ascii.eqb c "/"); simpl in *; lia.
Qed.

Lemma match_format_caps : forall ds s caps rest,
  match_format ds s = Some (caps, rest) -> forall p, In p caps -> In (fst p) ds.
Proof.
  induction ds as [|d ds IH]; intros s caps rest H p Hp; simpl in H.
  - injection H as <- <-. destruct Hp.
  - apply first_some_in in H as [alt [_ H]].
    destruct (match_alt alt s) as [[tok r]|]; [|discriminate].
    destruct (match_format ds r) as [[caps' r']|] eqn:Ef; [|discriminate].
    injection H as <- <-. destruct Hp as [<-|Hp]; [left; reflexivity|].
    right. exact (IH _ _ _ Ef p Hp).
Qed.

Lemma capture_none : forall d caps, (forall p, In p caps -> fst p <> d) -> capture d caps = None.
Proof.
  intros d caps H. unfold capture.
  destruct (find _ caps) as [[d' tok]|] eqn:E; [|reflexivity].
  apply find_some in E as [Hin E]. exfalso. apply (H _ Hin). simpl.
  destruct d', d; simpl in E; try discriminate; reflexivity.
Qed.

Lemma strptime_slash : forall x fmt, (nslash x < dslash fmt)%nat ->
  exists e, strptime x fmt = Raise e.
Proof.
  intros x fmt H. unfold strptime.
  destruct (match_format fmt x) as [[caps rest]|] eqn:E; [|eauto].
  apply match_format_slash in E. lia.
Qed.

Lemma strptime_md_year : forall x dt, strptime x fmt_md = Ok dt ->
  dt = mkdt 1900 (month dt) (day dt) /\ (1 <= month dt <= 12)%Z /\
  (1 <= day dt <= days_in_month 1900 (month dt))%Z.
Proof.
  intros x dt H. pose proof (strptime_valid _ _ _ H) as [_ [Hm Hd]].
  unfold strptime in H.
  destruct (match_format fmt_md x) as [[caps [|c r]]|] eqn:E; try discriminate.
  assert (Hc : forall d, d = DY \/ d = Dy -> capture d caps = None).
  { intros d Hdd. apply capture_none. intros p Hp Hpd.
    pose proof (match_format_caps _ _ _ _ E p Hp) as Hin. rewrite Hpd in Hin.
    unfold fmt_md in Hin. simpl in Hin. destruct Hdd as [-> | ->];
      destruct Hin as [Hx|[Hx|[Hx|[]]]]; discriminate. }
  rewrite (Hc DY (or_introl eq_refl)), (Hc Dy (or_intror eq_refl)) in H.
  apply mk_datetime_valid in H as [-> _]. simpl in *. auto.
Qed.

Lemma days_in_month_1900 : forall y m, (1 <= m <= 12)%Z ->
  (days_in_month 1900 m <= days_in_month y m)%Z.
Proof.
  intros y m Hm.
  assert (m = 1 \/ m = 2 \/ m = 3 \/ m = 4 \/ m = 5 \/ m = 6 \/ m = 7 \/ m = 8 \/
          m = 9 \/ m = 10 \/ m = 11 \/ m = 12)%Z as Hcases by lia.
  destruct Hcases as [->|[->|[->|[->|[->|[->|[->|[->|[->|[->|[->| ->]]]]]]]]]]];
    unfold days_in_month; try (vm_compute; discriminate).
  destruct (is_leap y); vm_compute; discriminate.
Qed.

Lemma parse_date_safe_no_year : forall ty x, (1 <= ty <= 9999)%Z -> (nslash (strip x) <= 1)%nat ->
  parse_date_safe ty x =
  match strip x with
  | EmptyString => None
  | x' => match strptime x' fmt_md with
          | Ok dt => Some (mkdt ty (month dt) (day dt))
          | Raise _ => None
          end
  end.
Proof.
  intros ty x Hty Hs. unfold parse_date_safe.
  destruct (strip x) as [|c r]; [reflexivity|].
  assert (D1 : dslash fmt_mdY = 2%nat) by reflexivity.
  assert (D2 : dslash fmt_mdy = 2%nat) by reflexivity.
  destruct (strptime_slash (String c r) fmt_mdY ltac:(lia)) as [e1 E1].
  destruct (strptime_slash (String c r) fmt_mdy ltac:(lia)) as [e2 E2].
  cbn [first_some]. rewrite E1, E2.
  destruct (strptime (String c r) fmt_md) as [dt|e] eqn:E3; [|reflexivity].
  destruct (strptime_md_year _ _ E3) as [Hdt [Hm Hd]].
  rewrite Hdt. cbn [year]. rewrite Z.eqb_refl.
  unfold replace_year, mk_datetime. cbn [month day].
  pose proof (days_in_month_1900 ty (month dt) Hm).
  replace ((1 <=? ty)%Z && (ty <=? 9999)%Z && (1 <=? month dt)%Z && (month dt <=? 12)%Z
           && (1 <=? day dt)%Z && (day dt <=? days_in_month ty (month dt))%Z) with true
    by (symmetry; repeat rewrite andb_true_iff; repeat split; apply Z.leb_le; lia).
  reflexivity.
Qed.

(** X11: a date text with at most one [/] has no year: [parse_date_safe]
    reads it with ["%m/%d"] and gives it the target year, whatever year
    the statement is from; the target year changes nothing else (a text
    read under one target year is read, with the other year, under any
    other target year in 1..9999). *)
Theorem parse_date_safe_target_year : forall ty1 ty2 x,
  (1 <= ty1 <= 9999)%Z -> (1 <= ty2 <= 9999)%Z -> (nslash (strip x) <= 1)%nat ->
  parse_date_safe ty1 x = option_map (fun dt => mkdt ty1 (month dt) (day dt)) (parse_date_safe ty2 x) /\
  (forall dt, parse_date_safe ty1 x = Some dt -> year dt = ty1).
Proof.
  intros ty1 ty2 x H1 H2 Hs.
  rewrite (parse_date_safe_no_year ty1 x H1 Hs), (parse_date_safe_no_year ty2 x H2 Hs).
  destruct (strip x) as [|c r]; [split; [reflexivity | discriminate]|].
  destruct (strptime (String c r) fmt_md); [|split; [reflexivity | discriminate]].
  split; [reflexivity|]. intros dt [= <-]. reflexivity.
Qed.

Lemma parse_date_safe_target_year_witness :
  parse_date_safe 2026 "12/31" = Some (mkdt 2026 12 31) /\
  parse_date_safe 2026 "12/31" = option_map (fun dt => mkdt 2026 (month dt) (day dt))
                                   (parse_date_safe 2025 "12/31").
Proof.
  split; [vm_compute; reflexivity|].
  exact (proj1 (parse_date_safe_target_year 2026 2025 "12/31"
                  ltac:(lia) ltac:(lia) ltac:(vm_compute; lia))).
Defined.

(** *** PDF statements and the target year *)

Lemma nslash_rev : forall s acc, nslash (rev_string s acc) = (nslash s + nslash acc)%nat.
Proof.
  induction s as [|c s IH]; intros acc; simpl; [reflexivity|].
  rewrite IH. simpl. lia.
Qed.

Lemma nslash_lstrip : forall s, (nslash (lstrip s) <= nslash s)%nat.
Proof.
  induction s as [|c s IH]; simpl; [lia|]. destruct (is_space c); simpl; lia.
Qed.

Lemma nslash_strip : forall s, (nslash (strip s) <= nslash s)%nat.
Proof.
  intros s. unfold strip. rewrite nslash_rev. simpl.
  pose proof (nslash_lstrip (rev_string (lstrip s) EmptyString)).
  rewrite nslash_rev in H. simpl in H. pose proof (nslash_lstrip s). lia.
Qed.

Lemma md_text_nslash : forall d, md_text d -> (nslash (strip d) <= 1)%nat.
Proof.
  intros d [a [b [c [e [-> [Ha [Hb [Hc He]]]]]]]].
  eapply Nat.le_trans; [apply nslash_strip|]. simpl.
  rewrite !digit_not_sep by (assumption || reflexivity). simpl. lia.
Qed.

Lemma filter_to_month_year_indep {R} : forall tm ty1 ty2 (date_of : R -> cell) rows,
  (1 <= ty1 <= 9999)%Z -> (1 <= ty2 <= 9999)%Z ->
  (forall r, In r rows -> (nslash (strip (cell_to_str (date_of r))) <= 1)%nat) ->
  (kept <- filter_to_month tm ty1 date_of rows ;; Ok (map fst kept)) =
  (kept <- filter_to_month tm ty2 date_of rows ;; Ok (map fst kept)).
Proof.
  intros tm ty1 ty2 date_of rows H1 H2 Hs. unfold filter_to_month. cbv zeta.
  assert (Hp : forall r, In r rows ->
    parse_date_safe ty1 (cell_to_str (date_of r)) =
      option_map (fun dt => mkdt ty1 (month dt) (day dt)) (parse_date_safe ty2 (cell_to_str (date_of r))) /\
    (forall dt, parse_date_safe ty2 (cell_to_str (date_of r)) = Some dt -> year dt = ty2)).
  { intros r Hr. split.
    - exact (proj1 (parse_date_safe_target_year ty1 ty2 _ H1 H2 (Hs r Hr))).
    - exact (proj2 (parse_date_safe_target_year ty2 ty1 _ H2 H1 (Hs r Hr))). }
  clear Hs.
  assert (Hex : existsb (fun p => match snd p with Some _ => true | None => false end)
                  (map (fun r => (r, parse_date_safe ty1 (cell_to_str (date_of r)))) rows) =
                existsb (fun p => match snd p with Some _ => true | None => false end)
                  (map (fun r => (r, parse_date_safe ty2 (cell_to_str (date_of r)))) rows)).
  { induction rows as [|r rows IH]; [reflexivity|]. simpl.
    destruct (Hp r (or_introl eq_refl)) as [E _]. rewrite E.
    destruct (parse_date_safe ty2 _); simpl; [reflexivity|].
    apply IH. intros r' Hr'. apply Hp. right. exact Hr'. }
  rewrite Hex. clear Hex.
  destruct (existsb (fun p : R * option datetime => match snd p with Some _ => true | None => false end)
              (map (fun r => (r, parse_date_safe ty2 (cell_to_str (date_of r)))) rows));
    [|reflexivity]. simpl. f_equal.
  induction rows as [|r rows IH]; [reflexivity|]. simpl.
  destruct (Hp r (or_introl eq_refl)) as [E Hy]. rewrite E.
  assert (IH' := IH (fun r' Hr' => Hp r' (or_intror Hr'))).
  destruct (parse_date_safe ty2 _) as [dt|]; simpl; [|exact IH'].
  rewrite (Hy dt eq_refl), !Z.eqb_refl, !andb_true_r.
  destruct (Z.eqb (month dt) tm); simpl; rewrite IH'; reflexivity.
Qed.

Lemma map_result_fst {A B C} (g : A -> result C) (kept : list (A * B)) :
  map_result (fun p => g (fst p)) kept = map_result g (map fst kept).
Proof. induction kept as [|[a b] kept IH]; simpl; [reflexivity|]. now rewrite IH. Qed.

Lemma finish_year_indep : forall tm ty1 ty2 st,
  (1 <= ty1 <= 9999)%Z -> (1 <= ty2 <= 9999)%Z ->
  (forall r, In r st -> (nslash (strip (cell_to_str (fst (fst r)))) <= 1)%nat) ->
  finish tm ty1 st = finish tm ty2 st.
Proof.
  intros tm ty1 ty2 st H1 H2 Hs. unfold finish.
  set (g := fun r : stage => let '(dt, d, a) := r in
              arg <- desc_arg d ;; v <- Cli.normalize_vendor arg ;;
              Ok (mktxn dt v (Cli.categorize_vendor v) a)).
  assert (Hg : forall ty, (kept <- filter_to_month tm ty (fun r : stage => let '(dt, _, _) := r in dt) st ;;
      map_result (fun p => let '((dt, d, a), _) := p in
                           arg <- desc_arg d ;; v <- Cli.normalize_vendor arg ;;
                           Ok (mktxn dt v (Cli.categorize_vendor v) a)) kept) =
      (k <- (kept <- filter_to_month tm ty (fun r : stage => let '(dt, _, _) := r in dt) st ;;
             Ok (map fst kept)) ;; map_result g k)).
  { intros ty. destruct (filter_to_month _ _ _ _) as [kept|e]; [|reflexivity]. simpl.
    rewrite <- map_result_fst. clear. induction kept as [|[[[dt d] a] p] kept IH]; [reflexivity|].
    simpl. rewrite IH. reflexivity. }
  rewrite !Hg, (filter_to_month_year_indep tm ty1 ty2); [reflexivity | exact H1 | exact H2|].
  intros [[dt d] a] Hr. exact (Hs _ Hr).
Qed.

Lemma extract_from_pdf_ok : forall doc fr, extract_from_pdf doc = Ok fr ->
  columns fr = ["date"; "description"; "amount"] /\
  forall row, In row (rows fr) -> pdf_row_ok row.
Proof.
  intros [pages|msg] fr; simpl; [|discriminate].
  destruct (pdf_pages (false, []) pages) as [[ins txs]|e] eqn:E; [|discriminate].
  destruct txs as [|row txs]; [discriminate|]. intros H; injection H as <-.
  split; [reflexivity|]. apply (pdf_pages_rows _ _ _ E). intros row' [].
Qed.

Lemma income_filter_in : forall st st' r, income_filter st = Ok st' -> In r st' -> In r st.
Proof.
  intros st st' r H Hr. unfold income_filter in H.
  apply bind_ok in H as [flags [_ H]]. injection H as <-. apply in_map_iff in Hr as [[r0 b] [<- Hin]].
  apply filter_In in Hin as [Hin _]. exact (in_combine_l _ _ _ _ Hin).
Qed.

Lemma stage_rows_date : forall cols date_c desc_c amt_c rs st i r,
  stage_rows cols date_c desc_c amt_c rs = Ok st -> col_idx cols date_c = Ok i -> In r st ->
  exists row, In row rs /\ fst (fst r) = nth i row CNaN.
Proof.
  intros cols date_c desc_c amt_c rs st i r H Hi Hr. unfold stage_rows in H. rewrite Hi in H.
  simpl in H. destruct (col_idx cols desc_c) as [j|e]; simpl in H; [|discriminate].
  destruct (col_idx cols amt_c) as [k|e]; simpl in H; [|discriminate].
  destruct (map_result_in _ _ _ H r Hr) as [row [Hrow Hf]]. exists row. split; [exact Hrow|].
  destruct (amount_of_cell (nth k row CNaN)); simpl in Hf; [|discriminate].
  injection Hf as <-. reflexivity.
Qed.

Lemma load_any_statement_date_desc_amount : forall tm ty f fr,
  read_frame f = Ok fr -> columns fr = ["date"; "description"; "amount"] ->
  load_any_statement tm ty f =
    (st <- stage_rows ["date"; "description"; "amount"] "date" "description" "amount" (rows fr) ;;
     st' <- income_filter st ;; finish tm ty st').
Proof.
  intros tm ty f fr Hr Hc. unfold load_any_statement. rewrite Hr. simpl bind. rewrite Hc.
  reflexivity.
Qed.

(** X10: a PDF statement is loaded the same way whatever target year is
    typed: its posting dates have the form DD/DD, with no year, so
    [parse_date_safe] puts every one of them in the target year, and the
    month filter, which compares the year with the target year, keeps
    the same rows for every year. *)
Theorem pdf_statement_year_independent : forall tm ty1 ty2 f doc,
  (1 <= ty1 <= 9999)%Z -> (1 <= ty2 <= 9999)%Z ->
  ends_with ".pdf" (lower (path f)) = true -> pdf_extract f = extract_from_pdf doc ->
  load_any_statement tm ty1 f = load_any_statement tm ty2 f.
Proof.
  intros tm ty1 ty2 f doc H1 H2 Hpdf Hext.
  assert (Hread : read_frame f = extract_from_pdf doc).
  { unfold read_frame. rewrite Hpdf. exact Hext. }
  destruct (extract_from_pdf doc) as [fr|e] eqn:E.
  - destruct (extract_from_pdf_ok _ _ E) as [Hc Hrows].
    rewrite !(load_any_statement_date_desc_amount _ _ f fr Hread Hc).
    destruct (stage_rows _ _ _ _ (rows fr)) as [st|e] eqn:S; simpl; [|reflexivity].
    destruct (income_filter st) as [st'|e] eqn:I; simpl; [|reflexivity].
    apply finish_year_indep; [exact H1 | exact H2|].
    intros r Hr. apply (income_filter_in _ _ _ I) in Hr.
    destruct (stage_rows_date _ _ _ _ _ _ 0 _ S eq_refl Hr) as [row [Hrow ->]].
    destruct (Hrows row Hrow) as [d [desc [q [-> [Hd _]]]]]. simpl.
    exact (md_text_nslash d Hd).
  - unfold load_any_statement. rewrite Hread. reflexivity.
Qed.


Lemma pdf_statement_year_independent_witness :
  load_any_statement 1 2026 sample_pdf_file = load_any_statement 1 2020 sample_pdf_file.
Proof.
  apply (pdf_statement_year_independent 1 2026 2020 sample_pdf_file sample_pdf);
    [lia | lia | reflexivity | reflexivity].
Defined.

(** *** The rules cache over a column *)

Lemma categorize_column_cached : forall fs rules vs,
  categorize_column fs (Some rules) vs = (map (first_match_category rules) vs, Some rules, []).
Proof.
  intros fs rules vs. induction vs as [|v vs IH]; [reflexivity|].
  simpl. rewrite IH. reflexivity.
Qed.

(** X12: in the email script the rules file is read at most once per
    run: once [load_category_rules] has succeeded, every later call of
    [categorize_vendor] uses the cached rules, whatever the rules files
    now hold, and logs nothing; the first call on a readable file sorts
    the rules by priority and caches them, so a whole column is
    categorized with the first matching rule of the sorted list. *)
Theorem email_rules_loaded_once : forall fs rs v vs,
  Email.rules_of_file fs = Ok rs ->
  categorize_column fs None (v :: vs) =
    (map (first_match_category (Email.sort_rules rs)) (v :: vs), Some (Email.sort_rules rs), []) /\
  forall fs', categorize_column fs' (Some (Email.sort_rules rs)) vs =
    (map (first_match_category (Email.sort_rules rs)) vs, Some (Email.sort_rules rs), []).
Proof.
  intros fs rs v vs H. split; [|intros fs'; apply categorize_column_cached].
  simpl. unfold Email.categorize_vendor at 1, Email.load_category_rules at 1. rewrite H.
  rewrite categorize_column_cached. reflexivity.
Qed.

Lemma email_rules_loaded_once_witness :
  exists rs, Email.rules_of_file tie_rules = Ok rs /\
    categorize_column tie_rules None ["Kroger #123"; "Shell Oil"] =
      (map (first_match_category (Email.sort_rules rs)) ["Kroger #123"; "Shell Oil"],
       Some (Email.sort_rules rs), []) /\
    map (first_match_category (Email.sort_rules rs)) ["Kroger #123"; "Shell Oil"] =
      [CStr "Groceries & Markets"; CStr "Shopping & Retail"].
Proof.
  destruct (Email.rules_of_file tie_rules) as [rs|e] eqn:E; [|vm_compute in E; discriminate].
  exists rs. split; [reflexivity|]. split.
  - exact (proj1 (email_rules_loaded_once tie_rules rs "Kroger #123" ["Shell Oil"] E)).
  - vm_compute in E. injection E as <-. vm_compute. reflexivity.
Defined.


(** *** Address validation of the email script *)

Lemma pm_cat_complete : forall p1 p2 s t1 gs1 t gs2,
  In (t1, gs1) (pm p1 s) -> In (t, gs2) (pm p2 t1) ->
  In (t, (gs1 ++ gs2)%list) (pm (PCat p1 p2) s).
Proof.
  intros p1 p2 s t1 gs1 t gs2 H1 H2. simpl. apply in_flat_map.
  exists (t1, gs1). split; [exact H1|]. apply in_map_iff. exists (t, gs2). auto.
Qed.

Lemma run_suffixes_complete : forall f w t, w <> EmptyString -> all_chars f w ->
  In t (run_suffixes f (w ++ t)).
Proof.
  intros f w t. induction w as [|c w IH]; intros Hw Hf; [congruence|].
  simpl. rewrite (Hf c (or_introl eq_refl)).
  destruct w as [|c' w']; [left; reflexivity|].
  right. apply IH; [discriminate|]. intros d Hd. apply Hf. right. exact Hd.
Qed.

Lemma pm_plus_complete : forall g f w t, w <> EmptyString -> all_chars f w ->
  In (t, []) (pm (PPlus g f) (w ++ t)).
Proof.
  intros g f w t Hw Hf. simpl. apply in_map_iff. exists t. split; [reflexivity|].
  pose proof (run_suffixes_complete f w t Hw Hf) as H.
  destruct g; [apply in_rev; rewrite rev_involutive|]; exact H.
Qed.

Lemma email_pattern_in : forall s t, (exists gs, In (t, gs) (pm email_pattern s)) <->
  exists l d a b, s = (l ++ "@" ++ d ++ "." ++ String a b ++ t)%string /\
    l <> EmptyString /\ all_chars local_char l /\
    d <> EmptyString /\ all_chars domain_char d /\
    is_alpha a = true /\ b <> EmptyString /\ all_chars is_alpha b.
Proof.
  intros s t. split.
  - intros [gs H]. unfold email_pattern in H.
    apply pm_cat_in in H as [t1 [gs1 [gs2 [H1 [H _]]]]].
    apply pm_plus_in in H1 as [_ H1]. apply run_suffixes_in in H1 as [l [-> [Hl Hlc]]].
    apply pm_cat_in in H as [t2 [? [? [H2 [H _]]]]].
    apply pm_cls_in in H2 as [_ [at_ [-> Hat]]].
    unfold is_char in Hat. apply Ascii.eqb_eq in Hat. subst at_.
    apply pm_cat_in in H as [t3 [? [? [H3 [H _]]]]].
    apply pm_plus_in in H3 as [_ H3]. apply run_suffixes_in in H3 as [d [-> [Hd Hdc]]].
    apply pm_cat_in in H as [t4 [? [? [H4 [H _]]]]].
    apply pm_cls_in in H4 as [_ [dot [-> Hdot]]].
    unfold is_char in Hdot. apply Ascii.eqb_eq in Hdot. subst dot.
    apply pm_cat_in in H as [t5 [? [? [H5 [H _]]]]].
    apply pm_cls_in in H5 as [_ [a [-> Ha]]].
    apply pm_plus_in in H as [_ H]. apply run_suffixes_in in H as [b [-> [Hb Hbc]]].
    exists l, d, a, b. repeat split; assumption.
  - intros [l [d [a [b [-> [Hl [Hlc [Hd [Hdc [Ha [Hb Hbc]]]]]]]]]]].
    exists []. unfold email_pattern.
    apply (pm_cat_complete _ _ _ ("@" ++ d ++ "." ++ String a b ++ t)%string [] t []);
      [apply pm_plus_complete; assumption|].
    apply (pm_cat_complete _ _ _ (d ++ "." ++ String a b ++ t)%string [] t []);
      [simpl; left; reflexivity|].
    apply (pm_cat_complete _ _ _ ("." ++ String a b ++ t)%string [] t []);
      [apply pm_plus_complete; assumption|].
    apply (pm_cat_complete _ _ _ (String a b ++ t)%string [] t []); [simpl; left; reflexivity|].
    apply (pm_cat_complete _ _ _ (b ++ t)%string [] t []); [simpl; rewrite Ha; left; reflexivity|].
    apply pm_plus_complete; assumption.
Qed.

Lemma at_end_iff : forall t, at_end t = true <-> t = EmptyString \/ t = String newline EmptyString.
Proof.
  intros [|c [|c' t]]; simpl; split.
  - auto.
  - reflexivity.
  - intros H. apply Ascii.eqb_eq in H. subst. auto.
  - intros [H|H]; [discriminate|]. injection H as ->. apply Ascii.eqb_refl.
  - discriminate.
  - intros [H|H]; discriminate.
Qed.

Lemma tld_iff : forall t, (2 <= String.length t)%nat /\ all_chars is_alpha t <->
  exists a b, t = String a b /\ is_alpha a = true /\ b <> EmptyString /\ all_chars is_alpha b.
Proof.
  intros t. split.
  - intros [Hl Ht]. destruct t as [|a b]; simpl in Hl; [lia|].
    exists a, b. repeat split.
    + apply Ht. left. reflexivity.
    + intros ->. simpl in Hl. lia.
    + intros c Hc. apply Ht. right. exact Hc.
  - intros [a [b [-> [Ha [Hb Hbc]]]]]. split.
    + destruct b; [congruence|]. simpl. lia.
    + intros c [<-|Hc]; [exact Ha | exact (Hbc c Hc)].
Qed.

(** X14: [validate_email] accepts exactly the texts made of a non-empty
    run of [[a-zA-Z0-9._%+-]], an [@], a non-empty run of
    [[a-zA-Z0-9.-]], a dot and at least two ASCII letters, optionally
    followed by one final newline (Python's [$] also matches before a
    newline that ends the text). *)
Theorem validate_email_iff : forall email,
  validate_email email = true <->
  exists l d t e, email = (l ++ "@" ++ d ++ "." ++ t ++ e)%string /\
    (e = EmptyString \/ e = String newline EmptyString) /\
    l <> EmptyString /\ all_chars local_char l /\
    d <> EmptyString /\ all_chars domain_char d /\
    (2 <= String.length t)%nat /\ all_chars is_alpha t.
Proof.
  intros email. unfold validate_email. rewrite existsb_exists. split.
  - intros [[e gs] [Hin He]]. simpl in He. apply at_end_iff in He.
    destruct (proj1 (email_pattern_in email e) (ex_intro _ gs Hin))
      as [l [d [a [b [-> [Hl [Hlc [Hd [Hdc [Ha [Hb Hbc]]]]]]]]]]].
    exists l, d, (String a b), e. repeat split; try assumption.
    + destruct b; [congruence|]. simpl. lia.
    + intros c [<-|Hc]; [exact Ha | exact (Hbc c Hc)].
  - intros [l [d [t [e [-> [He [Hl [Hlc [Hd [Hdc Ht]]]]]]]]]].
    destruct (proj1 (tld_iff t) Ht) as [a [b [-> [Ha [Hb Hbc]]]]].
    destruct (proj2 (email_pattern_in (l ++ "@" ++ d ++ "." ++ String a b ++ e) e))
      as [gs Hin].
    + exists l, d, a, b. repeat split; assumption.
    + exists (e, gs). split; [exact Hin|]. simpl. apply at_end_iff. exact He.
Qed.

Lemma validate_email_iff_witness :
  validate_email ("ab@x.io" ++ String newline EmptyString) = true /\
  validate_email "a@b.c" = false.
Proof.
  split.
  - apply validate_email_iff.
    exists "ab", "x", "io", (String newline EmptyString).
    split; [reflexivity|]. split; [right; reflexivity|].
    unfold all_chars. simpl.
    repeat split; try discriminate; try lia;
      intros c Hc; repeat (destruct Hc as [<-|Hc]; [reflexivity|]); contradiction.
  - vm_compute. reflexivity.
Defined.

(** *** The loader of the email script *)


Lemma map_result_combine {A B} (g : A -> result B) : forall xs ys x y,
  map_result g xs = Ok ys -> In (x, y) (combine xs ys) -> g x = Ok y.
Proof.
  induction xs as [|x0 xs IH]; intros ys x y H Hin; simpl in H.
  - injection H as <-. destruct Hin.
  - destruct (g x0) as [y0|e] eqn:G; simpl in H; [|discriminate].
    destruct (map_result g xs) as [ys0|e] eqn:M; simpl in H; [|discriminate].
    injection H as <-. simpl in Hin. destruct Hin as [Heq|Hin].
    + injection Heq as <- <-. exact G.
    + exact (IH ys0 x y eq_refl Hin).
Qed.

Lemma email_income_filter_src : forall st st' s,
  EmailLoad.income_filter st = Ok st' -> In s st' ->
  In s st /\ exists a, desc_arg (snd (fst s)) = Ok a /\ EmailLoad.is_income_or_transfer a = false.
Proof.
  intros st st' s H Hs. unfold EmailLoad.income_filter in H.
  apply bind_ok in H as [flags [Hf H]]. injection H as <-.
  apply in_map_iff in Hs as [[s0 b] [Heq Hin]]. simpl in Heq. subst s0.
  apply filter_In in Hin as [Hin Hb]. simpl in Hb. apply negb_true_iff in Hb. subst b.
  split; [exact (in_combine_l _ _ _ _ Hin)|].
  pose proof (map_result_combine _ _ _ _ _ Hf Hin) as G.
  destruct s as [[dt d] a]. simpl in G |- *.
  apply bind_ok in G as [arg [Ha G]]. injection G as G. eauto.
Qed.

Lemma email_finish_src : forall tm ty fs cache st df cache' log t,
  EmailLoad.finish tm ty fs cache st = (Ok df, cache', log) -> In t df ->
  exists s, In s st /\ exists a, desc_arg (snd (fst s)) = Ok a /\
    Email.normalize_vendor a = Ok (EmailLoad.t_vendor t).
Proof.
  intros tm ty fs cache st df cache' log t H Ht. unfold EmailLoad.finish in H.
  destruct (filter_to_month _ _ _ _) as [kept|e] eqn:F; [|discriminate].
  match type of H with
  | context [map_result ?g kept] => destruct (map_result g kept) as [vs|e] eqn:M; [|discriminate]
  end.
  destruct (categorize_column fs cache vs) as [[cats c1] l1]. injection H as <- _ _.
  apply in_map_iff in Ht as [[[[[[dt d] a] pd] v] c] [<- Hin]].
  apply in_combine_l in Hin.
  pose proof (map_result_combine _ _ _ _ _ M Hin) as G. simpl in G.
  apply in_combine_l in Hin.
  destruct (filter_to_month_kept _ _ _ _ _ F _ _ Hin) as [Hst _].
  exists (dt, d, a). split; [exact Hst|].
  apply bind_ok in G as [arg [Ha G]]. simpl. eauto.
Qed.

Lemma email_then_finish_src : forall tm ty fs cache (X : result (list stage)) df cache' log
    (P : nat -> Prop) rs,
  EmailLoad.then_finish tm ty fs cache (st <- X ;; EmailLoad.income_filter st) = (Ok df, cache', log) ->
  (forall st0 s, X = Ok st0 -> In s st0 ->
     exists row j, In row rs /\ P j /\ snd (fst s) = nth j row CNaN) ->
  forall t, In t df -> exists row j a, In row rs /\ P j /\
    desc_arg (nth j row CNaN) = Ok a /\ EmailLoad.is_income_or_transfer a = false /\
    Email.normalize_vendor a = Ok (EmailLoad.t_vendor t).
Proof.
  intros tm ty fs cache X df cache' log P rs H HX t Ht.
  destruct X as [st0|e]; simpl in H; [|discriminate].
  destruct (EmailLoad.income_filter st0) as [st1|e] eqn:I; simpl in H; [|discriminate].
  destruct (email_finish_src _ _ _ _ _ _ _ _ _ H Ht) as [s [Hs [a [Ha Hn]]]].
  destruct (email_income_filter_src _ _ _ I Hs) as [Hs0 [a' [Ha' Hi]]].
  rewrite Ha in Ha'. injection Ha' as <-.
  destruct (HX st0 s eq_refl Hs0) as [row [j [Hrow [Hj Hd]]]].
  exists row, j, a. rewrite <- Hd. auto.
Qed.

Lemma stage_rows_desc : forall cols date_c desc_c amt_c rs st s,
  stage_rows cols date_c desc_c amt_c rs = Ok st -> In s st ->
  exists row j, In row rs /\ col_idx cols desc_c = Ok j /\ snd (fst s) = nth j row CNaN.
Proof.
  intros cols date_c desc_c amt_c rs st s H Hs. unfold stage_rows in H.
  destruct (col_idx cols date_c) as [i|e]; simpl in H; [|discriminate].
  destruct (col_idx cols desc_c) as [j|e]; simpl in H; [|discriminate].
  destruct (col_idx cols amt_c) as [k|e]; simpl in H; [|discriminate].
  destruct (map_result_in _ _ _ H s Hs) as [row [Hrow Hf]]. exists row, j.
  split; [exact Hrow|]. split; [reflexivity|].
  destruct (amount_of_cell (nth k row CNaN)); simpl in Hf; [|discriminate].
  injection Hf as <-. reflexivity.
Qed.

Lemma credit_debit_rows_desc : forall cols rs st s,
  credit_debit_rows cols rs = Ok st -> In s st ->
  exists row j, In row rs /\ col_idx cols "description" = Ok j /\ snd (fst s) = nth j row CNaN.
Proof.
  intros cols rs st s H Hs. unfold credit_debit_rows in H.
  destruct (col_idx cols "date") as [i|e]; simpl in H; [|discriminate].
  destruct (col_idx cols "description") as [j|e]; simpl in H; [|discriminate].
  destruct (col_idx cols "credit") as [c|e]; simpl in H; [|discriminate].
  destruct (col_idx cols "debit") as [d|e]; simpl in H; [|discriminate].
  injection H as <-. apply in_map_iff in Hs as [row [<- Hrow]].
  exists row, j. auto.
Qed.

(** X15: in the email script every schema applies the income/transfer
    filter: each transaction [load_any_statement] returns comes from a
    row of the file whose description (the [description] column, or
    [payee] for the posted-date schema) contains none of the script's
    income/transfer keywords, and its vendor is [normalize_vendor] of
    that description. *)
Theorem email_loader_excludes_income : forall tm ty fs cache f df cache' log,
  EmailLoad.load_any_statement tm ty fs cache f = (Ok df, cache', log) ->
  exists fr, read_frame f = Ok fr /\
  forall t, In t df -> exists row j a, In row (rows fr) /\
    (col_idx (map (fun c => lower (strip c)) (columns fr)) "description" = Ok j \/
     col_idx (map (fun c => lower (strip c)) (columns fr)) "payee" = Ok j) /\
    desc_arg (nth j row CNaN) = Ok a /\ EmailLoad.is_income_or_transfer a = false /\
    Email.normalize_vendor a = Ok (EmailLoad.t_vendor t).
Proof.
  intros tm ty fs cache f df cache' log H. unfold EmailLoad.load_any_statement in H.
  destruct (read_frame f) as [fr|e]; [|discriminate]. exists fr. split; [reflexivity|].
  set (cols := map (fun c => lower (strip c)) (columns fr)) in *.
  destruct (_ && _ && _) in H;
    [|destruct (_ && _ && _) in H;
      [|destruct (_ && _ && _ && _) in H;
        [|destruct (_ && _ && _) in H; [|discriminate]]]];
    (eapply email_then_finish_src; [exact H|]);
    intros st0 s HX Hs;
    first [ destruct (stage_rows_desc _ _ _ _ _ _ _ HX Hs) as [row [j [Hr [Hj Hd]]]]
          | destruct (credit_debit_rows_desc _ _ _ _ HX Hs) as [row [j [Hr [Hj Hd]]]] ];
    exists row, j; eauto.
Qed.

Lemma email_loader_excludes_income_witness :
  exists df cache' log,
    EmailLoad.load_any_statement 1 2026 tie_rules None fmt3_with_autopay = (Ok df, cache', log) /\
    map EmailLoad.t_vendor df = ["KROGER"] /\
    exists fr, read_frame fmt3_with_autopay = Ok fr /\
    forall t, In t df -> exists row j a, In row (rows fr) /\
      desc_arg (nth j row CNaN) = Ok a /\ EmailLoad.is_income_or_transfer a = false.
Proof.
  destruct (EmailLoad.load_any_statement 1 2026 tie_rules None fmt3_with_autopay)
    as [[x cache'] log] eqn:E.
  destruct x as [df|e]; [|vm_compute in E; discriminate].
  exists df, cache', log. split; [reflexivity|]. split.
  - vm_compute in E. injection E as <- _ _. reflexivity.
  - destruct (email_loader_excludes_income _ _ _ _ _ _ _ _ E) as [fr [Hfr Hall]].
    exists fr. split; [exact Hfr|]. intros t Ht.
    destruct (Hall t Ht) as [row [j [a [Hrow [_ [Ha [Hi _]]]]]]]. exists row, j, a. auto.
Defined.
